(** * loc-counter: a shallow embedding of [src/loc-counter.ts]

    The development follows the source file top to bottom:

    - [JS]: the JavaScript string and array primitives the program calls
      ([trim], [indexOf], [slice], [startsWith], [split], [includes],
      [Array.prototype.sort], [Map.get]/[Map.set]);
    - the comment classifier [analyzeTextLines], written as the body of its
      [for] loop ([scanLine]) folded over the lines;
    - the directory walker [walkDir], the file analyzer [analyzeFile] and the
      entry point [run], in a small trace monad that records every call to
      the file system and to the console;
    - the properties of the specification, one theorem each.

    Numbers are [Z] (line counters are far below 2^53, where JavaScript
    numbers are exact integers).  A string is the list of its UTF-16 code
    units. *)

From Stdlib Require Import List ZArith NArith Lia Bool String Ascii.
From Stdlib Require Import Permutation Sorted.
Import ListNotations.
Local Open Scope Z_scope.

(* ===================================================================== *)
(** * JavaScript primitives *)
(* ===================================================================== *)

Module JS.

(** A UTF-16 code unit, and a string as the sequence of its code units. *)
Definition char16 := N.
Definition jstring := list char16.

(** A string literal of the source. *)
Definition lit (s : string) : jstring :=
  map N_of_ascii (list_ascii_of_string s).

(** The line feed, to write texts of several lines. *)
Definition newline : jstring := [10%N].

(** [a === b] on strings. *)
Fixpoint eqb (a b : jstring) : bool :=
  match a, b with
  | [], [] => true
  | x :: a', y :: b' => N.eqb x y && eqb a' b'
  | _, _ => false
  end.

(** [arr.includes(x)] on an array of strings. *)
Definition includes (arr : list jstring) (x : jstring) : bool :=
  existsb (eqb x) arr.

(** ECMAScript WhiteSpace and LineTerminator code points: what
    [String.prototype.trim] strips. *)
Definition isWhiteSpace (c : char16) : bool :=
  ((9 <=? c) && (c <=? 13) || (c =? 32) || (c =? 160) || (c =? 5760)
   || (8192 <=? c) && (c <=? 8202)
   || (c =? 8232) || (c =? 8233) || (c =? 8239) || (c =? 8287)
   || (c =? 12288) || (c =? 65279))%N.

Fixpoint trimStart (s : jstring) : jstring :=
  match s with
  | [] => []
  | c :: s' => if isWhiteSpace c then trimStart s' else s
  end.

Definition trimEnd (s : jstring) : jstring := rev (trimStart (rev s)).

(** [s.trim()] *)
Definition trim (s : jstring) : jstring := trimEnd (trimStart s).

(** [s.startsWith(p)] *)
Fixpoint startsWith (s p : jstring) : bool :=
  match p, s with
  | [], _ => true
  | x :: p', y :: s' => N.eqb x y && startsWith s' p'
  | _ :: _, [] => false
  end.

(** The scan of [indexOf]: [i] is the index of the head of [s] in the
    whole string. *)
Fixpoint indexOf_go (pat s : jstring) (i : Z) : Z :=
  if startsWith s pat then i
  else match s with
       | [] => -1
       | _ :: s' => indexOf_go pat s' (i + 1)
       end.

Definition clamp (k len : Z) : Z := Z.min (Z.max k 0) len.

(** [s.indexOf(pat, from)]; [s.indexOf(pat)] is [indexOf s pat 0]. *)
Definition indexOf (s pat : jstring) (from : Z) : Z :=
  let k := clamp from (Z.of_nat (List.length s)) in
  indexOf_go pat (skipn (Z.to_nat k) s) k.

(** [s.slice(start)]: a negative [start] counts from the end. *)
Definition slice {A} (s : list A) (start : Z) : list A :=
  let len := Z.of_nat (List.length s) in
  let k := if start <? 0 then Z.max (len + start) 0 else Z.min start len in
  skipn (Z.to_nat k) s.

(** [arr.slice(start, end)] *)
Definition slice2 {A} (s : list A) (start end_ : Z) : list A :=
  let len := Z.of_nat (List.length s) in
  let k := if start <? 0 then Z.max (len + start) 0 else Z.min start len in
  let final := if end_ <? 0 then Z.max (len + end_) 0 else Z.min end_ len in
  firstn (Z.to_nat (Z.max (final - k) 0)) (skipn (Z.to_nat k) s).

(** [s.replace(/\t/g, '    ')] *)
Definition replaceTabs (s : jstring) : jstring :=
  flat_map (fun c => if (c =? 9)%N then [32; 32; 32; 32]%N else [c]) s.

(** [s.replace(/^\./, '')] and [s.replace(/^[.]/, '')] *)
Definition stripLeadingDot (s : jstring) : jstring :=
  match s with
  | c :: s' => if (c =? 46)%N then s' else s
  | [] => []
  end.

(** [s.split(/\r\n|\n|\r/)]; [cur] holds the current piece, reversed. *)
Fixpoint splitLines_go (s cur : jstring) : list jstring :=
  match s with
  | [] => [rev cur]
  | c :: rest =>
      if (c =? 13)%N then
        match rest with
        | d :: rest' =>
            if (d =? 10)%N then rev cur :: splitLines_go rest' []
            else rev cur :: splitLines_go rest []
        | [] => rev cur :: splitLines_go rest []
        end
      else if (c =? 10)%N then rev cur :: splitLines_go rest []
      else splitLines_go rest (c :: cur)
  end.

Definition splitLines (s : jstring) : list jstring := splitLines_go s [].

(** [Array.prototype.sort(cmp)]: ECMAScript requires the sort to be stable.
    It is modelled by a stable insertion sort: [x] is placed before the
    first [y] that must not precede it, that is, unless [cmp x y > 0]. *)
Fixpoint sort_insert {A} (cmp : A -> A -> Z) (x : A) (l : list A) : list A :=
  match l with
  | [] => [x]
  | y :: l' => if 0 <? cmp x y then y :: sort_insert cmp x l' else x :: l
  end.

Fixpoint sort {A} (cmp : A -> A -> Z) (l : list A) : list A :=
  match l with
  | [] => []
  | x :: l' => sort_insert cmp x (sort cmp l')
  end.

(** [Map<string, V>]: entries in insertion order, keys unique. *)
Definition Map (V : Type) := list (jstring * V).

Fixpoint Map_get {V} (m : Map V) (k : jstring) : option V :=
  match m with
  | [] => None
  | (k', v) :: m' => if eqb k k' then Some v else Map_get m' k
  end.

Fixpoint Map_set {V} (m : Map V) (k : jstring) (v : V) : Map V :=
  match m with
  | [] => [(k, v)]
  | (k', v') :: m' =>
      if eqb k k' then (k', v) :: m' else (k', v') :: Map_set m' k v
  end.

End JS.

Import JS.

(* ===================================================================== *)
(** * The comment classifier: [analyzeTextLines] *)
(* ===================================================================== *)

(** [blockType: 'c' | 'html' | null] is [option BlockType]. *)
Inductive BlockType := BlockC | BlockHtml.

(** The variables the [for] loop of [analyzeTextLines] updates. *)
Record Scan := mkScan {
  s_nonEmpty : Z;
  s_commentOnly : Z;
  withinBlock : bool;
  blockType : option BlockType
}.

(** The object [analyzeTextLines] returns. *)
Record Counts := mkCounts { total : Z; nonEmpty : Z; commentOnly : Z }.

Definition isCStyle (ext : jstring) : bool :=
  includes [lit "ts"; lit "tsx"; lit "js"; lit "jsx";
            lit "css"; lit "scss"; lit "sass"; lit "less"] ext.

Definition isHtmlLike (ext : jstring) : bool :=
  eqb ext (lit "html") || eqb ext (lit "vue").

(** [nonEmpty++] *)
Definition incNonEmpty (st : Scan) : Scan :=
  mkScan (s_nonEmpty st + 1) (s_commentOnly st) (withinBlock st) (blockType st).

(** [commentOnly++] *)
Definition incCommentOnly (st : Scan) : Scan :=
  mkScan (s_nonEmpty st) (s_commentOnly st + 1) (withinBlock st) (blockType st).

(** [withinBlock = true; blockType = k] *)
Definition openBlock (k : BlockType) (st : Scan) : Scan :=
  mkScan (s_nonEmpty st) (s_commentOnly st) true (Some k).

(** [withinBlock = false; blockType = null] *)
Definition closeBlock (st : Scan) : Scan :=
  mkScan (s_nonEmpty st) (s_commentOnly st) false None.

(** The end token of a block and its length, as the two branches of the
    source write them. *)
Definition endToken (k : BlockType) : jstring :=
  match k with BlockC => lit "*/" | BlockHtml => lit "-->" end.

Definition endTokenLength (k : BlockType) : Z :=
  match k with BlockC => 2 | BlockHtml => 3 end.

(** Lines 195-213 ([k = BlockC]) and 214-231 ([k = BlockHtml]): the line is
    read inside a block comment of kind [k].  Every path ends in [continue]. *)
Definition insideBlock (k : BlockType) (trimmed : jstring) (st : Scan) : Scan :=
  let endIdx := indexOf trimmed (endToken k) 0 in
  if endIdx =? -1 then incCommentOnly st
  else
    let after := trim (slice trimmed (endIdx + endTokenLength k)) in
    if eqb after [] then closeBlock (incCommentOnly st)
    else closeBlock st.

(** Lines 236-280: the line is read outside a block comment. *)
Definition outsideBlock (ext trimmed : jstring) (st : Scan) : Scan :=
  if isCStyle ext then
    if startsWith trimmed (lit "//") then incCommentOnly st
    else
      let sIdx := indexOf trimmed (lit "/*") 0 in
      if negb (sIdx =? -1) then
        let eIdx := indexOf trimmed (lit "*/") (sIdx + 2) in
        if sIdx =? 0 then
          if eIdx =? -1 then openBlock BlockC (incCommentOnly st)
          else
            let after := trim (slice trimmed (eIdx + 2)) in
            if eqb after [] then incCommentOnly st else st
        else st
      else st
  else if isHtmlLike ext then
    if startsWith trimmed (lit "<!--") then
      let eIdx := indexOf trimmed (lit "-->") 0 in
      if eIdx =? -1 then openBlock BlockHtml (incCommentOnly st)
      else
        let after := trim (slice trimmed (eIdx + 3)) in
        if eqb after [] then incCommentOnly st else st
    else st
  else st.

(** The trimmed text of a raw line (lines 185-186). *)
Definition trimmedOf (raw : jstring) : jstring := trim (replaceTabs raw).

(** One iteration of the loop (lines 184-283). *)
Definition scanLine (ext : jstring) (detectComments : bool)
    (st : Scan) (raw : jstring) : Scan :=
  let trimmed := trimmedOf raw in
  if eqb trimmed [] then st
  else
    let st := incNonEmpty st in
    if negb detectComments then st
    else if withinBlock st then
      match blockType st with
      | Some k => insideBlock k trimmed st
      | None => outsideBlock ext trimmed st
      end
    else outsideBlock ext trimmed st.

Definition scanInit : Scan := mkScan 0 0 false None.

Definition scanFrom (ext : jstring) (detectComments : bool)
    (st : Scan) (lines : list jstring) : Scan :=
  fold_left (scanLine ext detectComments) lines st.

Definition scanLines (ext : jstring) (detectComments : bool)
    (lines : list jstring) : Scan :=
  scanFrom ext detectComments scanInit lines.

Definition analyzeTextLines (lines : list jstring) (ext : jstring)
    (detectComments : bool) : Counts :=
  let st := scanLines ext detectComments lines in
  mkCounts (Z.of_nat (List.length lines)) (s_nonEmpty st) (s_commentOnly st).

(* ===================================================================== *)
(** * Options, file statistics and the host environment *)
(* ===================================================================== *)

Inductive Format := FormatText | FormatJson.

Record Options := mkOptions {
  extensions : list jstring;
  excludeDirs : list jstring;
  countEmpty : bool;
  detectComments : bool;
  format : Format;
  top : Z
}.

Definition DEFAULT_OPTIONS : Options :=
  mkOptions
    [lit "ts"; lit "tsx"; lit "js"; lit "jsx"; lit "css"; lit "scss";
     lit "sass"; lit "less"; lit "html"; lit "vue"]
    [lit "node_modules"; lit ".git"; lit "dist"; lit "build"; lit ".next";
     lit "out"; lit "coverage"; lit "public"]
    false true FormatText 10.

Record FileStat := mkFileStat {
  file : jstring;
  ext : jstring;
  totalLines : Z;
  nonEmptyLines : Z;
  commentOnlyLines : Z
}.

(** A value of the map [perExt]. *)
Record ExtSummary := mkExtSummary {
  e_files : Z;
  e_totalLines : Z;
  e_nonEmpty : Z;
  e_comments : Z
}.

(** What [fs.readdir(dir, { withFileTypes: true })] lists: an entry is a
    regular file ([isFile()]), a directory ([isDirectory()]) or anything
    else (a symbolic link, a socket, ...).  A directory carries the answer
    [readdir] gives for it: [None] when the call throws. *)
#[warnings="-register-all"]
Inductive Dirent :=
| DirentFile (name : jstring)
| DirentDir (name : jstring) (listing : option (list Dirent))
| DirentOther (name : jstring).

Record Stats := mkStats { isDirectory : bool }.

(** The functions of Node the program calls and this repository does not
    define.  A [None] answer of the file system is a thrown exception. *)
Class Host := {
  path_join : jstring -> jstring -> jstring;
  path_extname : jstring -> jstring;
  toLowerCase : jstring -> jstring;
  fs_stat : jstring -> option Stats;
  fs_readdir : jstring -> option (list Dirent);
  fs_readFile : jstring -> option jstring
}.

(** What the program does to its environment, in order. *)
Inductive Event :=
| EvStat (p : jstring)
| EvReaddir (p : jstring)
| EvReadFile (p : jstring)
| EvConsoleError (args : list jstring)
| EvExit (code : Z).

(** A computation that appends to the trace of events. *)
Definition IO (A : Type) : Type := list Event -> A * list Event.

Definition ret {A} (a : A) : IO A := fun t => (a, t).

Definition bind {A B} (m : IO A) (k : A -> IO B) : IO B :=
  fun t => let (a, t') := m t in k a t'.

Definition emit (e : Event) : IO unit := fun t => (tt, t ++ [e]).

Declare Scope io_scope.
Delimit Scope io_scope with io.
Notation "x <- m ;; k" := (bind m (fun x => k))
  (at level 61, m at next level, right associativity) : io_scope.
Notation "m ;;; k" := (bind m (fun _ => k))
  (at level 61, right associativity) : io_scope.
Local Open Scope io_scope.

(** A [for ... of] loop whose body runs in [IO] and updates [b]. *)
Fixpoint forOf {A B} (body : B -> A -> IO B) (l : list A) (b : B) : IO B :=
  match l with
  | [] => ret b
  | x :: l' => b' <- body b x ;; forOf body l' b'
  end.

(** [process.exit(code)] ends the run; otherwise the function returns. *)
Inductive Outcome (A : Type) :=
| Exited (code : Z)
| Returned (a : A).
Arguments Exited {A} code.
Arguments Returned {A} a.

Definition shouldExcludeDir (dirname : jstring) (excludeList : list jstring)
    : bool :=
  includes excludeList dirname.

(** The locals of [run] at the point where the report is printed. *)
Record Report := mkReport {
  target : jstring;
  fileList : list jstring;
  perExt : Map ExtSummary;
  fileStats : list FileStat;
  totalFiles : Z;
  r_totalLines : Z;
  totalNonEmpty : Z;
  totalComments : Z;
  largest : list FileStat
}.

Section Program.

Context {host : Host}.

(** [path.extname(name).toLowerCase().replace(/^\./, '')] *)
Definition extensionOf (name : jstring) : jstring :=
  stripLeadingDot (toLowerCase (path_extname name)).

(** ** [walkDir] (lines 153-174) *)

(** The body of the loop over [entries], for one [entry].  The recursive
    call [walkDir(full, options, fileList)] on a directory is written
    out: it lists the directory (the listing is the one the entry
    carries) and loops over it. *)
Fixpoint walkEntry (dir : jstring) (options : Options) (entry : Dirent)
    (fileList : list jstring) {struct entry} : IO (list jstring) :=
  match entry with
  | DirentDir name listing =>
      let full := path_join dir name in
      if shouldExcludeDir name (excludeDirs options) then ret fileList
      else
        emit (EvReaddir full) ;;;
        match listing with
        | None => ret fileList
        | Some entries =>
            forOf (fun fl e => walkEntry full options e fl) entries fileList
        end
  | DirentFile name =>
      let full := path_join dir name in
      let ext := extensionOf name in
      if eqb ext [] then ret fileList
      else if (0 <? Z.of_nat (List.length (extensions options)))
              && negb (includes (extensions options) ext)
      then ret fileList
      else ret (fileList ++ [full])
  | DirentOther _ => ret fileList
  end.

(** [walkDir] once [readdir(dir)] has answered [listing]. *)
Definition walkListing (dir : jstring) (options : Options)
    (listing : option (list Dirent)) (fileList : list jstring)
    : IO (list jstring) :=
  emit (EvReaddir dir) ;;;
  match listing with
  | None => ret fileList
  | Some entries =>
      forOf (fun fl e => walkEntry dir options e fl) entries fileList
  end.

Definition walkDir (dir : jstring) (options : Options)
    (fileList : list jstring) : IO (list jstring) :=
  walkListing dir options (fs_readdir dir) fileList.

(** ** [analyzeFile] (lines 288-305) *)

Definition analyzeFile (filePath : jstring) (options : Options)
    : IO (option FileStat) :=
  emit (EvReadFile filePath) ;;;
  match fs_readFile filePath with
  | None => ret None
  | Some content =>
      let ext :=
        let e := extensionOf filePath in
        if eqb e [] then lit "unknown" else e in
      let lines := splitLines content in
      let c := analyzeTextLines lines ext (detectComments options) in
      ret (Some (mkFileStat filePath ext (total c) (nonEmpty c)
                   (commentOnly c)))
  end.

(** ** [run] (lines 307-346) *)

(** Lines 331-337: one analysed file is pushed and added to its
    extension's summary. *)
Definition accumulate (acc : Map ExtSummary * list FileStat) (s : FileStat)
    : Map ExtSummary * list FileStat :=
  let (perExt, fileStats) := acc in
  let cur :=
    match Map_get perExt (ext s) with
    | Some c => c
    | None => mkExtSummary 0 0 0 0
    end in
  let cur :=
    mkExtSummary (e_files cur + 1) (e_totalLines cur + totalLines s)
      (e_nonEmpty cur + nonEmptyLines s)
      (e_comments cur + commentOnlyLines s) in
  (Map_set perExt (ext s) cur, fileStats ++ [s]).

(** Lines 325-338: the loop over [fileList], from an empty [perExt] and
    an empty [fileStats]. *)
Definition analyzeAll (options : Options) (fileList : list jstring)
    : IO (Map ExtSummary * list FileStat) :=
  forOf (fun acc file =>
           s <- analyzeFile file options ;;
           match s with
           | None => ret acc
           | Some s => ret (accumulate acc s)
           end) fileList ([], []).

(** [fileStats.reduce((a, b) => a + f(b), 0)] *)
Definition reduceSum (f : FileStat -> Z) (fileStats : list FileStat) : Z :=
  fold_left (fun a b => a + f b) fileStats 0.

(** The comparator of line 346. *)
Definition byTotalLinesDesc (a b : FileStat) : Z :=
  totalLines b - totalLines a.

(** Line 346. *)
Definition largestFiles (fileStats : list FileStat) (top : Z)
    : list FileStat :=
  slice2 (sort byTotalLinesDesc fileStats) 0 top.

Definition pathNotFound : jstring := lit "Path not found:".
Definition mustBeDirectory : jstring :=
  lit "Provided path must be a directory".

Definition run (targetPath : jstring) (options : Options)
    : IO (Outcome Report) :=
  emit (EvStat targetPath) ;;;
  match fs_stat targetPath with
  | None =>
      emit (EvConsoleError [pathNotFound; targetPath]) ;;;
      emit (EvExit 2) ;;;
      ret (Exited 2)
  | Some stat =>
      if negb (isDirectory stat) then
        emit (EvConsoleError [mustBeDirectory]) ;;;
        emit (EvExit 2) ;;;
        ret (Exited 2)
      else
        fileList <- walkDir targetPath options [] ;;
        acc <- analyzeAll options fileList ;;
        let (perExt, fileStats) := acc in
        let totalFiles := Z.of_nat (List.length fileStats) in
        let totalLines := reduceSum totalLines fileStats in
        let totalNonEmpty := reduceSum nonEmptyLines fileStats in
        let totalComments := reduceSum commentOnlyLines fileStats in
        let largest := largestFiles fileStats (top options) in
        ret (Returned (mkReport targetPath fileList perExt fileStats
                         totalFiles totalLines totalNonEmpty totalComments
                         largest))
  end.

End Program.

(* ===================================================================== *)
(** * The vocabulary of the specification *)
(* ===================================================================== *)

(** The vocabulary of the specification: a token occurs in a line, the
    first occurrence of a token splits the line in the text before it and
    the text after it, a text is only whitespace. *)
Definition occurs (tok s : jstring) : Prop :=
  exists pre post, s = pre ++ tok ++ post.

Definition firstOccurrence (tok s pre post : jstring) : Prop :=
  s = pre ++ tok ++ post /\
  forall pre' post', s = pre' ++ tok ++ post' ->
    (List.length pre <= List.length pre')%nat.

Definition onlyWhitespace (s : jstring) : Prop :=
  Forall (fun c => isWhiteSpace c = true) s.

(** A raw line is blank when nothing is left of it once trimmed. *)
Definition blankLine (raw : jstring) : bool := eqb (trimmedOf raw) [].

Definition beginsWith (tok s : jstring) : Prop := exists rest, s = tok ++ rest.

(** The line read from [st] to [st'] was counted as comment-only, or not. *)
Definition countedComment (st st' : Scan) : Prop :=
  s_commentOnly st' = s_commentOnly st + 1.

Definition notCountedComment (st st' : Scan) : Prop :=
  s_commentOnly st' = s_commentOnly st.

(** The two variables of the block state go together: a block is open
    exactly when its kind is set, and the kind is the one of the file's
    family. *)
Definition blockStateOk (ext : jstring) (st : Scan) : Prop :=
  match blockType st with
  | Some BlockC => withinBlock st = true /\ isCStyle ext = true
  | Some BlockHtml =>
      withinBlock st = true /\ isCStyle ext = false /\ isHtmlLike ext = true
  | None => withinBlock st = false
  end.

(** The number of lines that are not blank. *)
Definition nonBlankCount (lines : list jstring) : Z :=
  Z.of_nat (List.length (filter (fun raw => negb (blankLine raw)) lines)).


(** In a c-style file, [opening] comes after the lines [pre], is read
    outside a block comment, starts with [/*] once trimmed, and neither it
    (after the opening token) nor any of the lines [rest] up to the end of
    the file holds the closing token. *)
Definition opensUnterminated (ext : jstring) (pre : list jstring)
    (opening : jstring) (rest : list jstring) : Prop :=
  isCStyle ext = true
  /\ withinBlock (scanLines ext true pre) = false
  /\ (exists r, trimmedOf opening = lit "/*" ++ r /\ ~ occurs (lit "*/") r)
  /\ Forall (fun raw => ~ occurs (lit "*/") (trimmedOf raw)) rest.

(** Every line from [opening] on is counted as comment-only. *)
Definition everyLineCounted (ext : jstring) (pre : list jstring)
    (opening : jstring) (rest : list jstring) : Prop :=
  commentOnly (analyzeTextLines (pre ++ opening :: rest) ext true)
  = commentOnly (analyzeTextLines pre ext true)
    + Z.of_nat (List.length (opening :: rest)).




(** Every line from [opening] on that is not blank is counted as
    comment-only, and no other. *)
Definition everyNonBlankLineCounted (ext : jstring) (pre : list jstring)
    (opening : jstring) (rest : list jstring) : Prop :=
  commentOnly (analyzeTextLines (pre ++ opening :: rest) ext true)
  = commentOnly (analyzeTextLines pre ext true)
    + nonBlankCount (opening :: rest).


(** ** The walker *)



Section WalkerSpec.

Context {host : Host}.




(** The statistics of the files of a list that can be read, in order. *)
Definition analysed (options : Options) (files : list jstring)
    : list FileStat :=
  flat_map (fun f => match fst (analyzeFile f options []) with
                     | Some s => [s]
                     | None => []
                     end) files.

(** The report of a run on a directory: the walker's list, the
    statistics of its readable files folded by [accumulate], and the
    totals of lines 341-346. *)
Definition reportOf (options : Options) (targetPath : jstring)
    (t : list Event) : Report :=
  let fileList :=
    fst (walkDir targetPath options [] (t ++ [EvStat targetPath])) in
  let acc := fold_left accumulate (analysed options fileList) ([], []) in
  mkReport targetPath fileList (fst acc) (snd acc)
    (Z.of_nat (List.length (snd acc)))
    (reduceSum totalLines (snd acc)) (reduceSum nonEmptyLines (snd acc))
    (reduceSum commentOnlyLines (snd acc))
    (largestFiles (snd acc) (top options)).

End WalkerSpec.

(** Events that surface an error: a message on [stderr], an exit. *)
Definition surfacesError (e : Event) : Prop :=
  match e with
  | EvConsoleError _ | EvExit _ => True
  | _ => False
  end.

(** Events that read the file system below the root. *)
Definition traversal (e : Event) : Prop :=
  match e with
  | EvReaddir _ | EvReadFile _ => True
  | _ => False
  end.

(** A computation only appends events that satisfy [P]. *)
Definition onlyEvents (P : Event -> Prop) {A} (m : IO A) : Prop :=
  forall t, exists l, snd (m t) = t ++ l /\ Forall P l.

(** ** The aggregator *)

Definition sumZ {A} (f : A -> Z) (l : list A) : Z :=
  fold_right (fun x a => f x + a) 0 l.

(** The records of one extension, in discovery order. *)
Definition withExt (e : jstring) (fileStats : list FileStat)
    : list FileStat :=
  filter (fun s => eqb (ext s) e) fileStats.

(** The summary of a list of records: their number and the sums of their
    three counters. *)
Definition summaryOf (l : list FileStat) : ExtSummary :=
  mkExtSummary (Z.of_nat (List.length l)) (sumZ totalLines l)
    (sumZ nonEmptyLines l) (sumZ commentOnlyLines l).

(** The sum of one field over all the entries of [perExt]. *)
Definition entrySum (f : ExtSummary -> Z) (m : Map ExtSummary) : Z :=
  sumZ (fun kv => f (snd kv)) m.

(** What the specification asks of the per-extension summaries: the entry
    of an extension is the summary of the records with that extension (and
    there is no entry when there is no such record), no extension has two
    entries, and each field summed over the entries is the sum over the
    records. *)
Definition summariesAgree (perExt : Map ExtSummary)
    (fileStats : list FileStat) : Prop :=
  (forall e,
      Map_get perExt e
      = match withExt e fileStats with
        | [] => None
        | _ :: _ => Some (summaryOf (withExt e fileStats))
        end)
  /\ NoDup (map fst perExt)
  /\ entrySum e_files perExt = Z.of_nat (List.length fileStats)
  /\ entrySum e_totalLines perExt = sumZ totalLines fileStats
  /\ entrySum e_nonEmpty perExt = sumZ nonEmptyLines fileStats
  /\ entrySum e_comments perExt = sumZ commentOnlyLines fileStats.

(** What the specification asks of the aggregates of a report. *)
Definition aggregatesAgree (r : Report) : Prop :=
  summariesAgree (perExt r) (fileStats r)
  /\ totalFiles r = Z.of_nat (List.length (fileStats r))
  /\ r_totalLines r = sumZ totalLines (fileStats r)
  /\ totalNonEmpty r = sumZ nonEmptyLines (fileStats r)
  /\ totalComments r = sumZ commentOnlyLines (fileStats r).

(** [l'] is [l] sorted by total line count, largest first, records with the
    same count staying in the order they have in [l]. *)
Definition sortedDesc (l : list FileStat) : Prop :=
  StronglySorted (fun a b => totalLines b <= totalLines a) l.

Definition tiesKeepOrder (l l' : list FileStat) : Prop :=
  forall n, filter (fun s => totalLines s =? n) l'
            = filter (fun s => totalLines s =? n) l.

Definition stableSortDesc (l l' : list FileStat) : Prop :=
  Permutation l l' /\ sortedDesc l' /\ tiesKeepOrder l l'.

(** ** A small project, to run the program on *)

Module Demo.

(** The text from the last dot of a name, when that dot is not its first
    character. *)
Fixpoint fromLastDot (s : jstring) : option jstring :=
  match s with
  | [] => None
  | c :: r =>
      match fromLastDot r with
      | Some e => Some e
      | None => if (c =? 46)%N then Some s else None
      end
  end.

Definition extname (name : jstring) : jstring :=
  match name with
  | [] => []
  | _ :: r => match fromLastDot r with Some e => e | None => [] end
  end.

Definition lower (s : jstring) : jstring :=
  map (fun c => if ((65 <=? c) && (c <=? 90))%N then (c + 32)%N else c) s.

Definition join (a b : jstring) : jstring := a ++ lit "/" ++ b.

Definition listing : list Dirent :=
  [ DirentDir (lit "src")
      (Some [ DirentFile (lit "a.ts");
              DirentFile (lit "Util.JS");
              DirentFile (lit "README");
              DirentFile (lit "notes.md");
              DirentFile (lit "ghost.ts");
              DirentDir (lit "node_modules")
                (Some [DirentFile (lit "dep.js")]) ]);
    DirentDir (lit "node_modules") (Some [DirentFile (lit "dep.js")]);
    DirentDir (lit "locked") None;
    DirentOther (lit "link.ts");
    DirentFile (lit "empty.ts");
    DirentFile (lit "index.html") ].

Definition readFile (p : jstring) : option jstring :=
  if eqb p (lit "proj/src/a.ts") then Some (lit "// a" ++ newline ++ newline ++ lit "code();")
  else if eqb p (lit "proj/src/Util.JS") then Some (lit "f();" ++ newline ++ lit "/* open" ++ newline
                                             ++ lit "   still open")
  else if eqb p (lit "proj/empty.ts") then Some []
  else if eqb p (lit "proj/index.html") then Some (lit "<!-- comment -->" ++ newline ++ lit "<div>x</div>")
  else None.

Definition stat (p : jstring) : option Stats :=
  if eqb p (lit "proj") then Some (mkStats true)
  else if eqb p (lit "proj/index.html") then Some (mkStats false)
  else None.

Definition readdir (p : jstring) : option (list Dirent) :=
  if eqb p (lit "proj") then Some listing else None.

Definition host : Host :=
  {| path_join := join;
     path_extname := extname;
     toLowerCase := lower;
     fs_stat := stat;
     fs_readdir := readdir;
     fs_readFile := readFile |}.

End Demo.

(* ===================================================================== *)
(** * The rest of the program, and the words to speak about it *)
(* ===================================================================== *)

(** ** [popt], the helper of [parseArgs] (line 72) *)

(** [s.split(',')]; [cur] holds the current piece, reversed. *)
Fixpoint splitComma_go (s cur : jstring) : list jstring :=
  match s with
  | [] => [rev cur]
  | c :: rest =>
      if (c =? 44)%N then rev cur :: splitComma_go rest []
      else splitComma_go rest (c :: cur)
  end.

Definition splitComma (s : jstring) : list jstring := splitComma_go s [].

(** [(s?: string) => (s ? s.split(',').map((p) => p.trim()).filter(Boolean)
    : [])]: an absent argument is [None]; the empty string is falsy, for
    the argument and for the pieces. *)
Definition popt (s : option jstring) : list jstring :=
  match s with
  | None => []
  | Some s =>
      if eqb s [] then []
      else filter (fun p => negb (eqb p [])) (map trim (splitComma s))
  end.

(** [l.join(sep)] *)
Fixpoint join (sep : jstring) (l : list jstring) : jstring :=
  match l with
  | [] => []
  | [x] => x
  | x :: l' => x ++ sep ++ join sep l'
  end.

(** ** The rows of the text breakdown (line 373) *)



(** ** Words for the properties *)

(** A text holds neither a line feed nor a carriage return. *)
Definition oneLine (s : jstring) : Prop :=
  forall c, In c s -> c <> 10%N /\ c <> 13%N.

(** A line terminator of [split(/\r\n|\n|\r/)]. *)
Definition lineTerminator (sep : jstring) : Prop :=
  sep = [10%N] \/ sep = [13%N; 10%N] \/ sep = [13%N].

(** The lines that hold a character that is not whitespace. *)
Definition visibleLines (lines : list jstring) : Z :=
  Z.of_nat (List.length
              (filter (fun raw => negb (forallb isWhiteSpace raw)) lines)).

(** An entry of a comma-separated option as [popt] keeps it: not empty,
    without whitespace around it, without comma. *)
Definition optionItem (p : jstring) : Prop :=
  p <> [] /\ trim p = p /\ ~ In 44%N p.

(** The directories a listing holds, in the order of a depth-first walk,
    each as the names that lead to it from the root of the listing, its
    own name last. *)
Fixpoint dirsOfEntry (entry : Dirent) : list (list jstring) :=
  match entry with
  | DirentDir name (Some entries) =>
      [name] :: map (cons name) (flat_map dirsOfEntry entries)
  | DirentDir name None => [[name]]
  | DirentFile _ => []
  | DirentOther _ => []
  end.

Definition dirsUnder (listing : option (list Dirent)) : list (list jstring) :=
  match listing with
  | None => []
  | Some entries => flat_map dirsOfEntry entries
  end.

(** No name on the way is excluded. *)
Definition notExcluded (options : Options) (chain : list jstring) : bool :=
  forallb (fun d => negb (includes (excludeDirs options) d)) chain.

(** Two configurations agree on everything but [countEmpty] and
    [format]. *)
Definition sameButFlags (o1 o2 : Options) : Prop :=
  extensions o1 = extensions o2 /\ excludeDirs o1 = excludeDirs o2
  /\ detectComments o1 = detectComments o2 /\ top o1 = top o2.


(** In an html-style file, [opening] comes after the lines [pre], is read
    outside a block comment, starts with [<!--] once trimmed, and neither
    it nor any of the lines [rest] holds [-->]. *)
Definition opensUnterminatedHtml (ext : jstring) (pre : list jstring)
    (opening : jstring) (rest : list jstring) : Prop :=
  isCStyle ext = false /\ isHtmlLike ext = true
  /\ withinBlock (scanLines ext true pre) = false
  /\ beginsWith (lit "<!--") (trimmedOf opening)
  /\ ~ occurs (lit "-->") (trimmedOf opening)
  /\ Forall (fun raw => ~ occurs (lit "-->") (trimmedOf raw)) rest.

Section WalkerTraceSpec.

Context {host : Host}.

(** The path of a directory below [dir]. *)
Definition dirPath (dir : jstring) (chain : list jstring) : jstring :=
  fold_left path_join chain dir.

(** The calls to [readdir] a walk of [dir] makes below [dir]. *)
Definition listedBelow (options : Options) (dir : jstring)
    (chains : list (list jstring)) : list Event :=
  map (fun chain => EvReaddir (dirPath dir chain))
    (filter (notExcluded options) chains).

(** A file can be read. *)
Definition readable (f : jstring) : bool :=
  match fs_readFile f with Some _ => true | None => false end.

End WalkerTraceSpec.

(* ===================================================================== *)
(** * Facts about the string primitives *)
(* ===================================================================== *)

Example scenario_c_style :
  analyzeTextLines (splitLines (lit "// a" ++ newline ++ newline ++ lit "code();")) (lit "ts") true = mkCounts 3 2 1.
Proof. reflexivity. Qed.

Example scenario_html_style :
  analyzeTextLines (splitLines (lit "<!-- comment -->" ++ newline ++ lit "<div>x</div>")) (lit "html") true = mkCounts 2 2 1.
Proof. reflexivity. Qed.

Lemma eqb_eq (a b : jstring) : eqb a b = true <-> a = b.
Proof.
  revert b; induction a as [|x a IH]; intros [|y b]; simpl;
    try (split; [discriminate | discriminate]); [tauto|].
  rewrite andb_true_iff, N.eqb_eq, IH.
  split; [intros [-> ->]; reflexivity | intros H; inversion H; auto].
Qed.

Lemma eqb_refl (a : jstring) : eqb a a = true.
Proof. apply eqb_eq; reflexivity. Qed.

Lemma eqb_nil (s : jstring) : eqb s [] = true <-> s = [].
Proof. apply eqb_eq. Qed.

Lemma eqb_nil_false (s : jstring) : eqb s [] = false <-> s <> [].
Proof.
  rewrite <- eqb_nil. destruct (eqb s []); split; congruence.
Qed.

Lemma startsWith_app (p r : jstring) : startsWith (p ++ r) p = true.
Proof.
  induction p as [|x p IH]; simpl; [destruct r; reflexivity|].
  now rewrite N.eqb_refl, IH.
Qed.

Lemma startsWith_spec (s p : jstring) :
  startsWith s p = true <-> exists r, s = p ++ r.
Proof.
  split.
  - revert s; induction p as [|x p IH]; intros s H; simpl in *.
    + now exists s.
    + destruct s as [|y s]; [discriminate|].
      apply andb_true_iff in H as [Hxy H]. apply N.eqb_eq in Hxy; subst y.
      destruct (IH _ H) as [r ->]. now exists r.
  - intros [r ->]. apply startsWith_app.
Qed.

Lemma trimStart_nil (s : jstring) : trimStart s = [] <-> onlyWhitespace s.
Proof.
  induction s as [|c s IH]; simpl.
  - split; [constructor | reflexivity].
  - destruct (isWhiteSpace c) eqn:E.
    + rewrite IH. split; [now constructor | now inversion 1].
    + split; [discriminate | inversion 1; congruence].
Qed.

Lemma trimStart_idem (s : jstring) : trimStart (trimStart s) = trimStart s.
Proof.
  induction s as [|c s IH]; simpl; [reflexivity|].
  destruct (isWhiteSpace c) eqn:E; [assumption | simpl; now rewrite E].
Qed.

Lemma onlyWhitespace_trimStart (s : jstring) :
  onlyWhitespace (trimStart s) <-> onlyWhitespace s.
Proof. now rewrite <- !trimStart_nil, trimStart_idem. Qed.

Lemma onlyWhitespace_rev (s : jstring) :
  onlyWhitespace (rev s) <-> onlyWhitespace s.
Proof.
  unfold onlyWhitespace. rewrite !Forall_forall.
  split; intros H c Hc; apply H; [now apply -> in_rev | now apply in_rev].
Qed.

(** [s.trim() === ''] exactly when [s] is only whitespace. *)
Lemma trim_nil (s : jstring) : trim s = [] <-> onlyWhitespace s.
Proof.
  unfold trim, trimEnd.
  rewrite <- onlyWhitespace_trimStart, <- (onlyWhitespace_rev (trimStart s)),
    <- trimStart_nil.
  split; intros H.
  - apply (f_equal (@rev _)) in H. now rewrite rev_involutive in H.
  - now rewrite H.
Qed.

Lemma trim_eqb_nil (s : jstring) :
  eqb (trim s) [] = true <-> onlyWhitespace s.
Proof. now rewrite eqb_nil, trim_nil. Qed.

Lemma occurs_cons (tok s : jstring) (c : char16) :
  occurs tok s -> occurs tok (c :: s).
Proof. intros (pre & post & ->). now exists (c :: pre), post. Qed.

Lemma occurs_cons_inv (tok s : jstring) (c : char16) :
  occurs tok (c :: s) -> startsWith (c :: s) tok = false -> occurs tok s.
Proof.
  intros (pre & post & E) Hs. destruct pre as [|d pre].
  - simpl in E. rewrite E, startsWith_app in Hs. discriminate.
  - inversion E; subst. now exists pre, post.
Qed.

Lemma firstOccurrence_here (tok post : jstring) :
  firstOccurrence tok (tok ++ post) [] post.
Proof. split; [reflexivity | intros; simpl; lia]. Qed.

Lemma firstOccurrence_cons (tok s pre post : jstring) (c : char16) :
  startsWith (c :: s) tok = false ->
  firstOccurrence tok s pre post ->
  firstOccurrence tok (c :: s) (c :: pre) post.
Proof.
  intros Hs [E Hmin]. split; [now rewrite E|].
  intros [|d pre'] post' E'.
  - simpl in E'. rewrite E', startsWith_app in Hs. discriminate.
  - inversion E' as [[Hd E'']]. simpl. apply le_n_S. eapply Hmin; eauto.
Qed.

Lemma firstOccurrence_cons_inv (tok s pre post : jstring) (c : char16) :
  firstOccurrence tok (c :: s) (c :: pre) post ->
  startsWith (c :: s) tok = false /\ firstOccurrence tok s pre post.
Proof.
  intros [E Hmin]. split.
  - destruct (startsWith (c :: s) tok) eqn:Hs; [|reflexivity].
    apply startsWith_spec in Hs as [r Hr].
    specialize (Hmin [] r Hr). simpl in Hmin. lia.
  - split; [now inversion E|].
    intros pre' post' E'. subst s.
    specialize (Hmin (c :: pre') post' eq_refl). simpl in Hmin. lia.
Qed.

Lemma firstOccurrence_head (tok s pre post : jstring) :
  firstOccurrence tok s pre post ->
  match pre with [] => True | c :: _ => exists s', s = c :: s' end.
Proof. intros [-> _]. destruct pre; [exact I | eexists; reflexivity]. Qed.

(** Either a token does not occur in a line or it has a first occurrence. *)
Lemma occurrence_cases (tok s : jstring) :
  ~ occurs tok s \/ exists pre post, firstOccurrence tok s pre post.
Proof.
  induction s as [|c s IH].
  - destruct (startsWith [] tok) eqn:Hs.
    + right. apply startsWith_spec in Hs as [r Hr].
      symmetry in Hr. apply app_eq_nil in Hr as [-> ->].
      exists [], []. apply (firstOccurrence_here [] []).
    + left. intros (pre & post & E). destruct pre; [|discriminate].
      simpl in E. rewrite E, startsWith_app in Hs. discriminate.
  - destruct (startsWith (c :: s) tok) eqn:Hs.
    + right. apply startsWith_spec in Hs as [r Hr]. exists [], r.
      rewrite Hr. apply firstOccurrence_here.
    + destruct IH as [IH | (pre & post & IH)].
      * left. intros H. apply IH. eapply occurs_cons_inv; eauto.
      * right. exists (c :: pre), post. now apply firstOccurrence_cons.
Qed.

Lemma indexOf_go_absent (pat s : jstring) (i : Z) :
  ~ occurs pat s -> indexOf_go pat s i = -1.
Proof.
  revert i; induction s as [|c s IH]; intros i H; cbn [indexOf_go].
  - destruct (startsWith [] pat) eqn:Hs; [|reflexivity].
    apply startsWith_spec in Hs as [r Hr]. exfalso. apply H.
    exists [], r. exact Hr.
  - destruct (startsWith (c :: s) pat) eqn:Hs.
    + apply startsWith_spec in Hs as [r Hr]. exfalso. apply H.
      exists [], r. exact Hr.
    + apply IH. intros Ho. apply H. now apply occurs_cons.
Qed.

Lemma indexOf_go_first (pat s pre post : jstring) (i : Z) :
  firstOccurrence pat s pre post ->
  indexOf_go pat s i = i + Z.of_nat (List.length pre).
Proof.
  revert s i; induction pre as [|c pre IH]; intros s i H.
  - destruct H as [-> _]. simpl app.
    pose proof (startsWith_app pat post) as Hs.
    destruct (pat ++ post); cbn [indexOf_go List.length]; rewrite Hs; lia.
  - pose proof (firstOccurrence_head _ _ _ _ H) as [s' ->].
    apply firstOccurrence_cons_inv in H as [Hs H].
    cbn [indexOf_go]. rewrite Hs, (IH _ _ H). cbn [List.length]. lia.
Qed.

Lemma indexOf_0 (s pat : jstring) : indexOf s pat 0 = indexOf_go pat s 0.
Proof.
  unfold indexOf, clamp.
  replace (Z.min (Z.max 0 0) (Z.of_nat (List.length s))) with 0 by lia.
  reflexivity.
Qed.

Lemma indexOf_after (a rest pat : jstring) :
  indexOf (a ++ rest) pat (Z.of_nat (List.length a))
  = indexOf_go pat rest (Z.of_nat (List.length a)).
Proof.
  unfold indexOf, clamp. rewrite length_app.
  replace (Z.min _ _) with (Z.of_nat (List.length a)) by lia.
  rewrite Nat2Z.id, skipn_app, skipn_all, Nat.sub_diag. reflexivity.
Qed.

Lemma slice_app (A : Type) (a b : list A) :
  slice (a ++ b) (Z.of_nat (List.length a)) = b.
Proof.
  unfold slice. rewrite length_app.
  destruct (Z.ltb_spec (Z.of_nat (List.length a)) 0); [lia|].
  replace (Z.min _ _) with (Z.of_nat (List.length a)) by lia.
  rewrite Nat2Z.id, skipn_app, skipn_all, Nat.sub_diag. reflexivity.
Qed.

(** After the first occurrence of [tok], [slice] returns the text that
    follows the token. *)
Lemma slice_after_first (tok s pre post : jstring) :
  firstOccurrence tok s pre post ->
  slice s (Z.of_nat (List.length pre) + Z.of_nat (List.length tok)) = post.
Proof.
  intros [-> _]. rewrite app_assoc, <- Nat2Z.inj_add, <- length_app.
  apply slice_app.
Qed.

(* ===================================================================== *)
(** * The classifier, line by line *)
(* ===================================================================== *)

Ltac break_if :=
  match goal with
  | |- context [if ?b then _ else _] => destruct b eqn:?
  | |- context [match ?b with Some _ => _ | None => _ end] => destruct b eqn:?
  end.

(** One line changes the counters in one of three ways. *)
Lemma scanLine_counts (ext : jstring) (detect : bool) (st : Scan)
    (raw : jstring) :
  let st' := scanLine ext detect st raw in
  (s_nonEmpty st' = s_nonEmpty st /\ s_commentOnly st' = s_commentOnly st)
  \/ (s_nonEmpty st' = s_nonEmpty st + 1 /\
      (s_commentOnly st' = s_commentOnly st
       \/ s_commentOnly st' = s_commentOnly st + 1)).
Proof.
  unfold scanLine, insideBlock, outsideBlock.
  repeat break_if; simpl; auto.
Qed.

Lemma scanFrom_counts (ext : jstring) (detect : bool) (lines : list jstring) :
  forall st,
    let st' := scanFrom ext detect st lines in
    s_commentOnly st <= s_commentOnly st'
    /\ s_nonEmpty st - s_commentOnly st <= s_nonEmpty st' - s_commentOnly st'
    /\ s_nonEmpty st' <= s_nonEmpty st + Z.of_nat (List.length lines).
Proof.
  induction lines as [|raw lines IH]; intros st; cbn zeta.
  - simpl. lia.
  - unfold scanFrom in *. cbn [fold_left List.length].
    specialize (IH (scanLine ext detect st raw)). cbn zeta in IH.
    pose proof (scanLine_counts ext detect st raw) as H. cbn zeta in H.
    lia.
Qed.

(** Every state the loop reaches has a well-formed block state, so a line
    read with [withinBlock] set is always read by [insideBlock]. *)
Lemma scanLine_blockStateOk (ext : jstring) (detect : bool) (st : Scan)
    (raw : jstring) :
  blockStateOk ext st -> blockStateOk ext (scanLine ext detect st raw).
Proof.
  unfold blockStateOk, scanLine, insideBlock, outsideBlock.
  destruct st as [n c w [[|]|]]; cbn [blockType withinBlock incNonEmpty];
    intros H; repeat break_if;
    cbn [blockType withinBlock incNonEmpty incCommentOnly openBlock
         closeBlock] in *;
    intuition congruence.
Qed.

Lemma scanFrom_blockStateOk (ext : jstring) (detect : bool)
    (lines : list jstring) :
  forall st, blockStateOk ext st ->
             blockStateOk ext (scanFrom ext detect st lines).
Proof.
  induction lines as [|raw lines IH]; intros st H; [exact H|].
  apply IH. now apply scanLine_blockStateOk.
Qed.

Lemma scanLines_open_block_kind (ext : jstring) (detect : bool)
    (lines : list jstring) :
  withinBlock (scanLines ext detect lines) = true ->
  exists k, blockType (scanLines ext detect lines) = Some k.
Proof.
  pose proof (scanFrom_blockStateOk ext detect lines scanInit eq_refl) as H.
  unfold scanLines, blockStateOk in *.
  destruct (blockType (scanFrom ext detect scanInit lines)) as [k|];
    [now exists k | congruence].
Qed.

Lemma scanFrom_app (ext : jstring) (detect : bool) (st : Scan)
    (l1 l2 : list jstring) :
  scanFrom ext detect st (l1 ++ l2)
  = scanFrom ext detect (scanFrom ext detect st l1) l2.
Proof. apply fold_left_app. Qed.

Lemma scanLine_blank (ext : jstring) (detect : bool) (st : Scan)
    (raw : jstring) :
  blankLine raw = true -> scanLine ext detect st raw = st.
Proof. unfold scanLine, blankLine. now intros ->. Qed.

(** A non-blank line, with detection on and no block open, is handed to
    the rules of lines 236-280. *)
Lemma scanLine_outside (ext : jstring) (st : Scan) (raw : jstring) :
  blankLine raw = false -> withinBlock st = false ->
  scanLine ext true st raw = outsideBlock ext (trimmedOf raw) (incNonEmpty st).
Proof.
  unfold scanLine, blankLine. intros -> Hw. simpl. now rewrite Hw.
Qed.

(** A non-blank line, with detection on and a block of kind [k] open, is
    handed to the rules of lines 193-233. *)
Lemma scanLine_inside (ext : jstring) (st : Scan) (raw : jstring)
    (k : BlockType) :
  blankLine raw = false -> withinBlock st = true -> blockType st = Some k ->
  scanLine ext true st raw = insideBlock k (trimmedOf raw) (incNonEmpty st).
Proof.
  unfold scanLine, blankLine. intros -> Hw Hk. simpl. now rewrite Hw, Hk.
Qed.

Lemma endToken_length (k : BlockType) :
  Z.of_nat (List.length (endToken k)) = endTokenLength k.
Proof. destruct k; reflexivity. Qed.

Lemma insideBlock_absent (k : BlockType) (trimmed : jstring) (st : Scan) :
  ~ occurs (endToken k) trimmed ->
  insideBlock k trimmed st = incCommentOnly st.
Proof.
  intros H. unfold insideBlock.
  now rewrite indexOf_0, (indexOf_go_absent _ _ _ H).
Qed.

Lemma insideBlock_found (k : BlockType) (trimmed pre post : jstring)
    (st : Scan) :
  firstOccurrence (endToken k) trimmed pre post ->
  insideBlock k trimmed st
  = if eqb (trim post) [] then closeBlock (incCommentOnly st)
    else closeBlock st.
Proof.
  intros H. unfold insideBlock.
  rewrite indexOf_0, (indexOf_go_first _ _ _ _ _ H), <- endToken_length.
  rewrite Z.add_0_l, (slice_after_first _ _ _ _ H).
  destruct (Z.eqb_spec (Z.of_nat (List.length pre)) (-1)); [lia | reflexivity].
Qed.

Lemma not_onlyWhitespace_trim (s : jstring) :
  ~ onlyWhitespace s -> eqb (trim s) [] = false.
Proof.
  intros H. destruct (eqb (trim s) []) eqn:E; [|reflexivity].
  now apply trim_eqb_nil in E.
Qed.

Lemma trimmed_nonblank (raw : jstring) :
  trimmedOf raw <> [] -> blankLine raw = false.
Proof. intros H. now apply eqb_nil_false. Qed.

Lemma beginsWith_nonblank (tok raw : jstring) :
  tok <> [] -> beginsWith tok (trimmedOf raw) -> blankLine raw = false.
Proof.
  intros Ht [r Hr]. apply trimmed_nonblank. rewrite Hr.
  destruct tok; [congruence | discriminate].
Qed.

(** The c-style rules outside a block, case by case. *)
Lemma outsideBlock_line_comment (ext rest : jstring) (st : Scan) :
  isCStyle ext = true ->
  outsideBlock ext (lit "//" ++ rest) st = incCommentOnly st.
Proof.
  intros Hc. unfold outsideBlock. now rewrite Hc, startsWith_app.
Qed.

Lemma indexOf_block_start (rest : jstring) :
  indexOf (lit "/*" ++ rest) (lit "/*") 0 = 0.
Proof.
  rewrite indexOf_0.
  now rewrite (indexOf_go_first _ _ _ _ _ (firstOccurrence_here _ rest)).
Qed.

Lemma indexOf_block_end (rest pat : jstring) :
  indexOf (lit "/*" ++ rest) pat (0 + 2) = indexOf_go pat rest 2.
Proof.
  change (0 + 2) with (Z.of_nat (List.length (lit "/*"))).
  now rewrite indexOf_after.
Qed.

Lemma outsideBlock_open (ext rest : jstring) (st : Scan) :
  isCStyle ext = true -> ~ occurs (lit "*/") rest ->
  outsideBlock ext (lit "/*" ++ rest) st = openBlock BlockC (incCommentOnly st).
Proof.
  intros Hc H. unfold outsideBlock.
  rewrite Hc, indexOf_block_start, indexOf_block_end.
  rewrite (indexOf_go_absent _ _ _ H).
  reflexivity.
Qed.

Lemma outsideBlock_single_line (ext rest pre post : jstring) (st : Scan) :
  isCStyle ext = true -> firstOccurrence (lit "*/") rest pre post ->
  outsideBlock ext (lit "/*" ++ rest) st
  = if eqb (trim post) [] then incCommentOnly st else st.
Proof.
  intros Hc H. unfold outsideBlock.
  rewrite Hc, indexOf_block_start, indexOf_block_end.
  rewrite (indexOf_go_first _ _ _ _ _ H).
  replace (startsWith (lit "/*" ++ rest) (lit "//")) with false
    by reflexivity.
  cbn [negb Z.eqb].
  destruct (Z.eqb_spec (2 + Z.of_nat (List.length pre)) (-1)); [lia|].
  destruct H as [-> _].
  replace (2 + Z.of_nat (List.length pre) + 2)
    with (Z.of_nat (List.length (lit "/*" ++ pre ++ lit "*/"))).
  2:{ rewrite !length_app. cbn [lit List.length map list_ascii_of_string]. lia. }
  replace (lit "/*" ++ pre ++ lit "*/" ++ post)
    with ((lit "/*" ++ pre ++ lit "*/") ++ post)
    by (now rewrite <- !app_assoc).
  now rewrite slice_app.
Qed.

Lemma outsideBlock_code_first (ext trimmed pre post : jstring) (st : Scan) :
  isCStyle ext = true ->
  firstOccurrence (lit "/*") trimmed pre post -> pre <> [] ->
  outsideBlock ext trimmed st
  = if startsWith trimmed (lit "//") then incCommentOnly st else st.
Proof.
  intros Hc H Hpre. unfold outsideBlock.
  rewrite Hc, indexOf_0, (indexOf_go_first _ _ _ _ _ H), Z.add_0_l.
  destruct (startsWith trimmed (lit "//")); [reflexivity|].
  destruct (Z.eqb_spec (Z.of_nat (List.length pre)) (-1)); [lia|].
  destruct (Z.eqb_spec (Z.of_nat (List.length pre)) 0) as [E|E];
    [|reflexivity].
  destruct pre; [congruence | discriminate].
Qed.

Lemma startsWith_false (s p : jstring) :
  ~ beginsWith p s -> startsWith s p = false.
Proof.
  intros H. destruct (startsWith s p) eqn:E; [|reflexivity].
  now apply startsWith_spec in E.
Qed.

Lemma not_occurs_by_indexOf (pat s : jstring) :
  indexOf_go pat s 0 = -1 -> ~ occurs pat s.
Proof.
  intros E Ho. destruct (occurrence_cases pat s) as [H | (pre & post & H)];
    [now apply H|].
  rewrite (indexOf_go_first _ _ _ _ _ H) in E. lia.
Qed.

(** A first occurrence, checked by running [indexOf]. *)
Lemma firstOccurrence_by_indexOf (tok s pre post : jstring) :
  s = pre ++ tok ++ post ->
  indexOf_go tok s 0 = Z.of_nat (List.length pre) ->
  firstOccurrence tok s pre post.
Proof.
  intros E Hi. split; [exact E|]. intros pre' post' E'.
  destruct (occurrence_cases tok s) as [H | (p & q & H)].
  - exfalso. apply H. now exists pre, post.
  - rewrite (indexOf_go_first _ _ _ _ _ H) in Hi.
    destruct H as [_ Hmin]. specialize (Hmin _ _ E'). lia.
Qed.

(* ===================================================================== *)
(** * Properties of the classifier *)
(* ===================================================================== *)

(** The counters of [analyzeTextLines] are ordered, whatever the lines, the
    extension and the setting of comment detection. *)
Lemma counts_ordered_lines (lines : list jstring) (ext : jstring)
    (detectComments : bool) :
  let r := analyzeTextLines lines ext detectComments in
  0 <= commentOnly r /\ commentOnly r <= nonEmpty r /\ nonEmpty r <= total r.
Proof.
  cbn zeta. unfold analyzeTextLines, scanLines. cbn [total nonEmpty commentOnly].
  pose proof (scanFrom_counts ext detectComments lines scanInit) as H.
  cbn zeta in H. cbn [scanInit s_nonEmpty s_commentOnly] in H. lia.
Qed.

(** C2. A non-blank line read inside a block comment of kind [k] (end
    token [*/] for c, [-->] for html): when the end token does not occur,
    the line is counted as comment-only and the block stays open; when it
    occurs and only whitespace follows its first occurrence, the line is
    counted as comment-only and the block closes; when something else
    follows, the block closes and the line is not counted, whatever the
    text after the token is (a comment start in it opens nothing). *)
Theorem inside_block_rule (ext : jstring) (st : Scan) (raw : jstring)
    (k : BlockType) :
  trimmedOf raw <> [] -> withinBlock st = true -> blockType st = Some k ->
  let trimmed := trimmedOf raw in
  let st' := scanLine ext true st raw in
  s_nonEmpty st' = s_nonEmpty st + 1
  /\ (~ occurs (endToken k) trimmed ->
      countedComment st st'
      /\ withinBlock st' = true /\ blockType st' = Some k)
  /\ (forall pre post, firstOccurrence (endToken k) trimmed pre post ->
      (onlyWhitespace post ->
       countedComment st st'
       /\ withinBlock st' = false /\ blockType st' = None)
      /\ (~ onlyWhitespace post ->
          notCountedComment st st'
          /\ withinBlock st' = false /\ blockType st' = None)).
Proof.
  intros Hne Hw Hk. cbn zeta.
  rewrite (scanLine_inside ext st raw k (trimmed_nonblank _ Hne) Hw Hk).
  unfold countedComment, notCountedComment.
  split; [|split].
  - unfold insideBlock. repeat break_if; reflexivity.
  - intros H. rewrite (insideBlock_absent _ _ _ H). simpl. auto.
  - intros pre post H. rewrite (insideBlock_found _ _ _ _ _ H). split.
    + intros Hp. apply trim_eqb_nil in Hp. rewrite Hp. simpl. auto.
    + intros Hp. rewrite (not_onlyWhitespace_trim _ Hp). simpl. auto.
Qed.

(** C3. A non-blank line of a c-style file read outside a block comment,
    the rules being tried in the order of the source: a line that starts
    with [//] is counted as comment-only; a line that starts with [/*] and
    has no [*/] after the opening token is counted and opens a c block; a
    line that starts with [/*] and has [*/] after it is counted exactly
    when only whitespace follows the first such [*/], and opens no block;
    a line that does not start with [//] and whose first [/*] is not at
    position 0 is not counted. *)
Theorem outside_block_c_style_rule (ext : jstring) (st : Scan)
    (raw : jstring) :
  isCStyle ext = true -> trimmedOf raw <> [] -> withinBlock st = false ->
  let trimmed := trimmedOf raw in
  let st' := scanLine ext true st raw in
  (beginsWith (lit "//") trimmed ->
   countedComment st st' /\ withinBlock st' = false)
  /\ (forall rest, trimmed = lit "/*" ++ rest ->
      (~ occurs (lit "*/") rest ->
       countedComment st st'
       /\ withinBlock st' = true /\ blockType st' = Some BlockC)
      /\ (forall pre post, firstOccurrence (lit "*/") rest pre post ->
          (onlyWhitespace post -> countedComment st st')
          /\ (~ onlyWhitespace post -> notCountedComment st st')
          /\ withinBlock st' = false))
  /\ (forall pre post, firstOccurrence (lit "/*") trimmed pre post ->
      pre <> [] -> ~ beginsWith (lit "//") trimmed ->
      notCountedComment st st' /\ withinBlock st' = false).
Proof.
  intros Hc Hne Hw. cbn zeta.
  rewrite (scanLine_outside ext st raw (trimmed_nonblank _ Hne) Hw).
  unfold countedComment, notCountedComment.
  split; [|split].
  - intros [rest ->]. rewrite (outsideBlock_line_comment _ _ _ Hc).
    simpl. auto.
  - intros rest ->. split.
    + intros H. rewrite (outsideBlock_open _ _ _ Hc H). simpl. auto.
    + intros pre post H. rewrite (outsideBlock_single_line _ _ _ _ _ Hc H).
      split; [|split].
      * intros Hp. apply trim_eqb_nil in Hp. now rewrite Hp.
      * intros Hp. now rewrite (not_onlyWhitespace_trim _ Hp).
      * destruct (eqb (trim post) []); simpl; exact Hw.
  - intros pre post H Hpre Hsl.
    rewrite (outsideBlock_code_first _ _ _ _ _ Hc H Hpre).
    rewrite (startsWith_false _ _ Hsl). simpl. auto.
Qed.

Lemma nonBlankCount_cons (raw : jstring) (rest : list jstring) :
  nonBlankCount (raw :: rest)
  = (if blankLine raw then 0 else 1) + nonBlankCount rest.
Proof.
  unfold nonBlankCount. cbn [filter].
  destruct (blankLine raw); cbn [negb List.length]; lia.
Qed.

(** Inside a c block, lines without the end token keep the block open, and
    each of them that is not blank is counted. *)
Lemma scanFrom_inside_c (ext : jstring) (rest : list jstring) :
  forall st,
    withinBlock st = true -> blockType st = Some BlockC ->
    Forall (fun raw => ~ occurs (lit "*/") (trimmedOf raw)) rest ->
    scanFrom ext true st rest
    = mkScan (s_nonEmpty st + nonBlankCount rest)
        (s_commentOnly st + nonBlankCount rest) true (Some BlockC).
Proof.
  induction rest as [|raw rest IH]; intros st Hw Hk Hall.
  - destruct st; simpl in *; subst. unfold nonBlankCount; simpl.
    now rewrite !Z.add_0_r.
  - inversion Hall as [|? ? Hraw Hrest]; subst.
    unfold scanFrom in *. cbn [fold_left]. rewrite nonBlankCount_cons.
    destruct (blankLine raw) eqn:Hb.
    + rewrite (scanLine_blank _ _ _ _ Hb), (IH st Hw Hk Hrest).
      reflexivity.
    + rewrite (scanLine_inside ext st raw BlockC Hb Hw Hk).
      rewrite (insideBlock_absent BlockC _ _ Hraw).
      rewrite IH; [|exact Hw|exact Hk|exact Hrest].
      cbn [incCommentOnly incNonEmpty s_nonEmpty s_commentOnly].
      f_equal; lia.
Qed.



(** C8, as amended.  In a c-style file read with comment detection on, a
    block comment that opens with [/*] at the start of a trimmed line and
    is not closed before the end of the file: every line from the opening
    line on that is not blank is counted as comment-only (blank lines are
    not counted), and the block is still open at the end of the file. *)
Theorem unterminated_block_counts_nonblank (ext : jstring)
    (pre : list jstring) (opening : jstring) (rest : list jstring) :
  opensUnterminated ext pre opening rest ->
  everyNonBlankLineCounted ext pre opening rest
  /\ nonEmpty (analyzeTextLines (pre ++ opening :: rest) ext true)
     = nonEmpty (analyzeTextLines pre ext true)
       + nonBlankCount (opening :: rest)
  /\ withinBlock (scanLines ext true (pre ++ opening :: rest)) = true.
Proof.
  intros (Hc & Hw & (r & Hr & Hno) & Hrest).
  unfold everyNonBlankLineCounted, analyzeTextLines, scanLines in *.
  cbn [commentOnly nonEmpty].
  rewrite scanFrom_app. set (st := scanFrom ext true scanInit pre) in *.
  assert (blankLine opening = false) as Hb.
  { apply (beginsWith_nonblank (lit "/*")); [discriminate | now exists r]. }
  change (scanFrom ext true st (opening :: rest))
    with (scanFrom ext true (scanLine ext true st opening) rest).
  rewrite (scanLine_outside ext st opening Hb Hw), Hr.
  rewrite (outsideBlock_open _ _ _ Hc Hno).
  rewrite scanFrom_inside_c; [|reflexivity|reflexivity|exact Hrest].
  rewrite nonBlankCount_cons, Hb.
  cbn [openBlock incCommentOnly incNonEmpty s_nonEmpty s_commentOnly
       withinBlock].
  repeat split; lia.
Qed.




(* ===================================================================== *)
(** * Facts about the trace monad and its loops *)
(* ===================================================================== *)

Lemma bind_fst {A B} (m : IO A) (k : A -> IO B) (t : list Event) :
  fst (bind m k t) = fst (k (fst (m t)) (snd (m t))).
Proof. unfold bind. now destruct (m t). Qed.

Lemma bind_snd {A B} (m : IO A) (k : A -> IO B) (t : list Event) :
  snd (bind m k t) = snd (k (fst (m t)) (snd (m t))).
Proof. unfold bind. now destruct (m t). Qed.

(** A loop whose body returns a value that does not depend on the trace
    is a fold of that value. *)
Lemma forOf_fold {A B} (body : B -> A -> IO B) (g : B -> A -> B)
    (l : list A) :
  (forall x, In x l -> forall b t, fst (body b x t) = g b x) ->
  forall b t, fst (forOf body l b t) = fold_left g l b.
Proof.
  induction l as [|x l IH]; intros H b t; [reflexivity|].
  cbn [forOf fold_left]. rewrite bind_fst, IH.
  - now rewrite (H x (or_introl eq_refl)).
  - intros y Hy. apply H. now right.
Qed.

Lemma onlyEvents_ret (P : Event -> Prop) {A} (a : A) : onlyEvents P (ret a).
Proof. intros t. exists []. now rewrite app_nil_r. Qed.

Lemma onlyEvents_emit (P : Event -> Prop) (e : Event) :
  P e -> onlyEvents P (emit e).
Proof. intros H t. exists [e]. split; [reflexivity | now constructor]. Qed.

Lemma onlyEvents_bind (P : Event -> Prop) {A B} (m : IO A) (k : A -> IO B) :
  onlyEvents P m -> (forall a, onlyEvents P (k a)) -> onlyEvents P (bind m k).
Proof.
  intros Hm Hk t. rewrite bind_snd.
  destruct (Hm t) as (l1 & E1 & H1).
  destruct (Hk (fst (m t)) (snd (m t))) as (l2 & E2 & H2).
  exists (l1 ++ l2). rewrite E2, E1, app_assoc.
  split; [reflexivity | now apply Forall_app].
Qed.

Lemma onlyEvents_forOf (P : Event -> Prop) {A B} (body : B -> A -> IO B)
    (l : list A) :
  (forall x, In x l -> forall b, onlyEvents P (body b x)) ->
  forall b, onlyEvents P (forOf body l b).
Proof.
  induction l as [|x l IH]; intros H b; cbn [forOf].
  - apply onlyEvents_ret.
  - apply onlyEvents_bind; [apply H; now left|].
    intros b'. apply IH. intros y Hy. apply H. now right.
Qed.

(** Induction on a directory entry, with the property known for every
    entry of a listed directory. *)
Lemma Dirent_nested_ind (P : Dirent -> Prop) :
  (forall name, P (DirentFile name)) ->
  (forall name, P (DirentDir name None)) ->
  (forall name entries,
      Forall P entries -> P (DirentDir name (Some entries))) ->
  (forall name, P (DirentOther name)) ->
  forall entry, P entry.
Proof.
  intros Hf Hn Hs Ho. fix IH 1. intros [name | name [entries|] | name].
  - apply Hf.
  - apply Hs. induction entries as [|e entries IHe]; constructor.
    + apply IH.
    + exact IHe.
  - apply Hn.
  - apply Ho.
Qed.

(* ===================================================================== *)
(** * Properties of the walker *)
(* ===================================================================== *)

Section WalkerFacts.

Context {host : Host}.
Variable options : Options.







Lemma walkEntry_events (entry : Dirent) :
  forall dir fileList,
    onlyEvents traversal (walkEntry dir options entry fileList).
Proof.
  induction entry as [name | name | name entries IH | name]
    using Dirent_nested_ind; intros dir fileList; cbn [walkEntry].
  - repeat break_if; apply onlyEvents_ret.
  - break_if; [apply onlyEvents_ret|].
    apply onlyEvents_bind; [now apply onlyEvents_emit|].
    intros _. apply onlyEvents_ret.
  - break_if; [apply onlyEvents_ret|].
    apply onlyEvents_bind; [now apply onlyEvents_emit|].
    intros _. apply onlyEvents_forOf.
    intros e He fl. rewrite Forall_forall in IH. now apply IH.
  - apply onlyEvents_ret.
Qed.

Lemma walkDir_events (dir : jstring) (fileList : list jstring) :
  onlyEvents traversal (walkDir dir options fileList).
Proof.
  unfold walkDir, walkListing.
  apply onlyEvents_bind; [now apply onlyEvents_emit|].
  intros _. destruct (fs_readdir dir); [|apply onlyEvents_ret].
  apply onlyEvents_forOf. intros e _ fl. apply walkEntry_events.
Qed.

End WalkerFacts.


(* ===================================================================== *)
(** * Properties of the aggregator *)
(* ===================================================================== *)

Lemma sumZ_app {A} (f : A -> Z) (l1 l2 : list A) :
  sumZ f (l1 ++ l2) = sumZ f l1 + sumZ f l2.
Proof.
  induction l1 as [|x l1 IH]; [reflexivity|].
  cbn [app sumZ fold_right]. fold (sumZ f (l1 ++ l2)). fold (sumZ f l1). lia.
Qed.

Lemma sumZ_one {A} (l : list A) :
  sumZ (fun _ => 1) l = Z.of_nat (List.length l).
Proof.
  induction l as [|x l IH]; [reflexivity|].
  cbn [sumZ fold_right List.length]. fold (sumZ (fun _ : A => 1) l). lia.
Qed.

Lemma reduceSum_sumZ (f : FileStat -> Z) (l : list FileStat) :
  reduceSum f l = sumZ f l.
Proof.
  unfold reduceSum.
  enough (forall a, fold_left (fun a b => a + f b) l a = a + sumZ f l) as H
    by (now rewrite H).
  induction l as [|x l IH]; intros a; cbn [fold_left sumZ fold_right]; [lia|].
  fold (sumZ f l). rewrite IH. lia.
Qed.

Lemma Map_get_set {V} (m : Map V) (k e : jstring) (v : V) :
  Map_get (Map_set m k v) e = if eqb e k then Some v else Map_get m e.
Proof.
  induction m as [|[k' v'] m IH]; cbn [Map_set Map_get]; [reflexivity|].
  destruct (eqb k k') eqn:Ek; cbn [Map_get].
  - apply eqb_eq in Ek; subst k'. now destruct (eqb e k).
  - rewrite IH. destruct (eqb e k') eqn:Ee; [|reflexivity].
    destruct (eqb e k) eqn:Ee'; [|reflexivity].
    apply eqb_eq in Ee, Ee'; subst. now rewrite eqb_refl in Ek.
Qed.

Lemma Map_get_None_keys {V} (m : Map V) (k : jstring) :
  Map_get m k = None -> ~ In k (map fst m).
Proof.
  induction m as [|[k' v'] m IH]; cbn [Map_get map fst]; [tauto|].
  destruct (eqb k k') eqn:Ek; [discriminate|].
  intros H [E | Hin]; [|now apply IH].
  subst. now rewrite eqb_refl in Ek.
Qed.

Lemma Map_set_keys {V} (m : Map V) (k : jstring) (v : V) :
  map fst (Map_set m k v)
  = match Map_get m k with
    | Some _ => map fst m
    | None => map fst m ++ [k]
    end.
Proof.
  induction m as [|[k' v'] m IH]; cbn [Map_set Map_get map fst app];
    [reflexivity|].
  destruct (eqb k k'); cbn [map fst]; [reflexivity|].
  rewrite IH. now destruct (Map_get m k).
Qed.

Lemma Map_set_NoDup {V} (m : Map V) (k : jstring) (v : V) :
  NoDup (map fst m) -> NoDup (map fst (Map_set m k v)).
Proof.
  intros H. rewrite Map_set_keys. destruct (Map_get m k) eqn:E; [exact H|].
  apply NoDup_app.
  - exact H.
  - constructor; [intros [] | constructor].
  - intros x Hx [<-|[]]. now apply (Map_get_None_keys m k).
Qed.

(** Setting a key changes the sum of a field by the difference between
    the new value and the one it replaces. *)
Lemma entrySum_set (f : ExtSummary -> Z) (m : Map ExtSummary) (k : jstring)
    (v : ExtSummary) :
  entrySum f (Map_set m k v)
  = entrySum f m + f v
    - match Map_get m k with Some c => f c | None => 0 end.
Proof.
  unfold entrySum.
  induction m as [|[k' v'] m IH]; cbn [Map_set Map_get sumZ fold_right snd];
    [lia|].
  destruct (eqb k k'); cbn [sumZ fold_right snd]; [lia|].
  fold (sumZ (fun kv => f (snd kv)) (Map_set m k v)).
  fold (sumZ (fun kv => f (snd kv)) m). lia.
Qed.

Lemma withExt_snoc (e : jstring) (l : list FileStat) (s : FileStat) :
  withExt e (l ++ [s])
  = withExt e l ++ (if eqb (ext s) e then [s] else []).
Proof. unfold withExt. now rewrite filter_app. Qed.

Lemma summaryOf_snoc (l : list FileStat) (s : FileStat) :
  summaryOf (l ++ [s])
  = mkExtSummary (e_files (summaryOf l) + 1)
      (e_totalLines (summaryOf l) + totalLines s)
      (e_nonEmpty (summaryOf l) + nonEmptyLines s)
      (e_comments (summaryOf l) + commentOnlyLines s).
Proof.
  unfold summaryOf. cbn [e_files e_totalLines e_nonEmpty e_comments].
  rewrite !sumZ_app, length_app. cbn [sumZ fold_right List.length].
  f_equal; lia.
Qed.

(** The entry [accumulate] starts from is the summary of the records of
    the extension seen so far. *)
Lemma current_summary (m : Map ExtSummary) (fs : list FileStat)
    (e : jstring) :
  summariesAgree m fs ->
  match Map_get m e with Some c => c | None => mkExtSummary 0 0 0 0 end
  = summaryOf (withExt e fs).
Proof.
  intros (Hget & _). rewrite Hget.
  now destruct (withExt e fs).
Qed.

Lemma summariesAgree_nil : summariesAgree [] [].
Proof. repeat split; try reflexivity. constructor. Qed.

Lemma accumulate_agree (m : Map ExtSummary) (fs : list FileStat)
    (s : FileStat) :
  summariesAgree m fs ->
  summariesAgree (fst (accumulate (m, fs) s)) (snd (accumulate (m, fs) s)).
Proof.
  intros H. pose proof (current_summary m fs (ext s) H) as Hcur.
  destruct H as (Hget & Hnd & Hf & Ht & Hn & Hc).
  unfold accumulate. cbn [fst snd]. rewrite Hcur, <- summaryOf_snoc.
  assert (forall f, match Map_get m (ext s) with
                    | Some c => f c | None => 0 end
                    = match withExt (ext s) fs with
                      | [] => 0
                      | _ :: _ => f (summaryOf (withExt (ext s) fs))
                      end) as Hold.
  { intros f. rewrite Hget. now destruct (withExt (ext s) fs). }
  assert (withExt (ext s) (fs ++ [s]) = withExt (ext s) fs ++ [s]) as Hsn.
  { now rewrite withExt_snoc, eqb_refl. }
  split; [|split; [|repeat split]].
  - intros e. rewrite Map_get_set, withExt_snoc.
    destruct (eqb e (ext s)) eqn:Ee.
    + apply eqb_eq in Ee; subst e. rewrite eqb_refl.
      destruct (withExt (ext s) fs); reflexivity.
    + replace (eqb (ext s) e) with false.
      * rewrite app_nil_r. apply Hget.
      * symmetry. destruct (eqb (ext s) e) eqn:E'; [|reflexivity].
        apply eqb_eq in E'; subst. now rewrite eqb_refl in Ee.
  - now apply Map_set_NoDup.
  - rewrite entrySum_set, Hold, Hf, length_app, summaryOf_snoc.
    cbn [e_files List.length].
    destruct (withExt (ext s) fs); cbn [summaryOf e_files List.length]; lia.
  - rewrite entrySum_set, Hold, Ht, sumZ_app, summaryOf_snoc.
    cbn [e_totalLines sumZ fold_right].
    destruct (withExt (ext s) fs);
      cbn [summaryOf e_totalLines sumZ fold_right]; lia.
  - rewrite entrySum_set, Hold, Hn, sumZ_app, summaryOf_snoc.
    cbn [e_nonEmpty sumZ fold_right].
    destruct (withExt (ext s) fs);
      cbn [summaryOf e_nonEmpty sumZ fold_right]; lia.
  - rewrite entrySum_set, Hold, Hc, sumZ_app, summaryOf_snoc.
    cbn [e_comments sumZ fold_right].
    destruct (withExt (ext s) fs);
      cbn [summaryOf e_comments sumZ fold_right]; lia.
Qed.

Lemma fold_accumulate_agree (l : list FileStat) :
  forall acc,
    summariesAgree (fst acc) (snd acc) ->
    summariesAgree (fst (fold_left accumulate l acc))
      (snd (fold_left accumulate l acc)).
Proof.
  induction l as [|s l IH]; intros [m fs] H; [exact H|].
  cbn [fold_left]. apply IH.
  destruct (accumulate (m, fs) s) eqn:E.
  pose proof (accumulate_agree m fs s H) as H'. now rewrite E in H'.
Qed.

Lemma fold_accumulate_stats (l : list FileStat) :
  forall acc, snd (fold_left accumulate l acc) = snd acc ++ l.
Proof.
  induction l as [|s l IH]; intros [m fs]; cbn [fold_left snd].
  - now rewrite app_nil_r.
  - rewrite IH. unfold accumulate. cbn [snd]. now rewrite <- app_assoc.
Qed.

(* ===================================================================== *)
(** * Properties of [analyzeFile] and [run] *)
(* ===================================================================== *)

Section RunFacts.

Context {host : Host}.
Variable options : Options.

(** What [analyzeFile] returns does not depend on the trace so far. *)
Lemma analyzeFile_fst (filePath : jstring) (t : list Event) :
  fst (analyzeFile filePath options t)
  = fst (analyzeFile filePath options []).
Proof.
  unfold analyzeFile. rewrite !bind_fst.
  now destruct (fs_readFile filePath).
Qed.

Lemma analyzeFile_unreadable (filePath : jstring) (t : list Event) :
  fs_readFile filePath = None ->
  analyzeFile filePath options t = (None, t ++ [EvReadFile filePath]).
Proof. unfold analyzeFile, bind, emit. now intros ->. Qed.

Lemma analyzeFile_events (filePath : jstring) :
  onlyEvents traversal (analyzeFile filePath options).
Proof.
  unfold analyzeFile.
  apply onlyEvents_bind; [now apply onlyEvents_emit|].
  intros _. destruct (fs_readFile filePath); apply onlyEvents_ret.
Qed.

Lemma fold_analysed (files : list jstring) :
  forall acc,
    fold_left (fun acc f => match fst (analyzeFile f options []) with
                            | Some s => accumulate acc s
                            | None => acc
                            end) files acc
    = fold_left accumulate (analysed options files) acc.
Proof.
  induction files as [|f files IH]; intros acc; [reflexivity|].
  unfold analysed in *. cbn [fold_left flat_map].
  rewrite fold_left_app, IH.
  now destruct (fst (analyzeFile f options [])).
Qed.

(** The loop of [run] folds [accumulate] over the statistics of the
    files that can be read. *)
Lemma analyzeAll_fold (files : list jstring) (t : list Event) :
  fst (analyzeAll options files t)
  = fold_left accumulate (analysed options files) ([], []).
Proof.
  unfold analyzeAll. rewrite <- fold_analysed.
  apply forOf_fold. intros f _ acc t'.
  rewrite bind_fst, analyzeFile_fst.
  now destruct (fst (analyzeFile f options [])).
Qed.

Lemma analyzeAll_events (files : list jstring) :
  onlyEvents traversal (analyzeAll options files).
Proof.
  unfold analyzeAll. apply onlyEvents_forOf. intros f _ acc.
  apply onlyEvents_bind; [apply analyzeFile_events|].
  intros [s|]; apply onlyEvents_ret.
Qed.

Lemma analysed_unreadable (l1 l2 : list jstring) (f : jstring) :
  fs_readFile f = None ->
  analysed options (l1 ++ f :: l2) = analysed options (l1 ++ l2).
Proof.
  intros H. unfold analysed. rewrite !flat_map_app. cbn [flat_map].
  now rewrite (analyzeFile_unreadable f [] H).
Qed.

Lemma run_directory (targetPath : jstring) (t : list Event) (st : Stats) :
  fs_stat targetPath = Some st -> isDirectory st = true ->
  fst (run targetPath options t) = Returned (reportOf options targetPath t).
Proof.
  intros Hs Hd. unfold run, reportOf.
  rewrite bind_fst, Hs, Hd. cbn [negb emit fst snd].
  rewrite bind_fst, bind_fst, analyzeAll_fold.
  now destruct (fold_left accumulate _ _).
Qed.

Lemma run_directory_events (targetPath : jstring) (t : list Event)
    (st : Stats) :
  fs_stat targetPath = Some st -> isDirectory st = true ->
  exists l, snd (run targetPath options t) = t ++ EvStat targetPath :: l
            /\ Forall traversal l.
Proof.
  intros Hs Hd. unfold run.
  rewrite bind_snd, Hs, Hd. cbn [negb emit fst snd].
  assert (onlyEvents traversal
            (fileList <- walkDir targetPath options [] ;;
             acc <- analyzeAll options fileList ;;
             (let (perExt, fileStats) := acc in
              ret (Returned
                     (mkReport targetPath fileList perExt fileStats
                        (Z.of_nat (List.length fileStats))
                        (reduceSum totalLines fileStats)
                        (reduceSum nonEmptyLines fileStats)
                        (reduceSum commentOnlyLines fileStats)
                        (largestFiles fileStats (top options))))))) as H.
  { apply onlyEvents_bind; [apply walkDir_events|]. intros fl.
    apply onlyEvents_bind; [apply analyzeAll_events|]. intros [m fs].
    apply onlyEvents_ret. }
  destruct (H (t ++ [EvStat targetPath])) as (l & E & Hl).
  exists l. rewrite E, <- app_assoc. now split.
Qed.

Lemma run_missing (targetPath : jstring) (t : list Event) :
  fs_stat targetPath = None ->
  run targetPath options t
  = (Exited 2,
     t ++ [EvStat targetPath;
           EvConsoleError [pathNotFound; targetPath]; EvExit 2]).
Proof.
  intros Hs. unfold run, bind, emit, ret. rewrite Hs.
  now rewrite <- !app_assoc.
Qed.

Lemma run_not_directory (targetPath : jstring) (t : list Event)
    (st : Stats) :
  fs_stat targetPath = Some st -> isDirectory st = false ->
  run targetPath options t
  = (Exited 2,
     t ++ [EvStat targetPath;
           EvConsoleError [mustBeDirectory]; EvExit 2]).
Proof.
  intros Hs Hd. unfold run, bind, emit, ret. rewrite Hs, Hd.
  cbn [negb]. now rewrite <- !app_assoc.
Qed.

End RunFacts.

(** C4. For every run that returns a report: the records of the report
    are those [analyzeFile] returns for the files of the walker's list
    that can be read, in order; the entry of [perExt] for an extension
    holds the number of these records with that extension and the sums of
    their total, non-empty and comment-only lines (and an extension
    without record has no entry); each global total is the sum of the
    counter over all records, which is the sum of the field over all
    entries of [perExt]. *)
Theorem run_aggregates {host : Host} (targetPath : jstring)
    (options : Options) (t : list Event) (r : Report) :
  fst (run targetPath options t) = Returned r ->
  fileList r = fst (walkDir targetPath options [] (t ++ [EvStat targetPath]))
  /\ fileStats r = analysed options (fileList r)
  /\ aggregatesAgree r
  /\ (forall e,
         Map_get (perExt r) e
         = match withExt e (analysed options (fileList r)) with
           | [] => None
           | _ :: _ =>
               Some (summaryOf (withExt e (analysed options (fileList r))))
           end)
  /\ totalFiles r
     = Z.of_nat (List.length (analysed options (fileList r)))
  /\ r_totalLines r = sumZ totalLines (analysed options (fileList r))
  /\ totalNonEmpty r = sumZ nonEmptyLines (analysed options (fileList r))
  /\ totalComments r
     = sumZ commentOnlyLines (analysed options (fileList r)).
Proof.
  destruct (fs_stat targetPath) as [st|] eqn:Hs.
  - destruct (isDirectory st) eqn:Hd.
    + rewrite (run_directory options targetPath t st Hs Hd).
      intros [= <-].
      assert (fileStats (reportOf options targetPath t)
              = analysed options (fileList (reportOf options targetPath t)))
        as Hstats.
      { unfold reportOf. cbn [fileStats fileList].
        now rewrite fold_accumulate_stats. }
      assert (aggregatesAgree (reportOf options targetPath t)) as Hagree.
      { unfold aggregatesAgree, reportOf.
        cbn [perExt fileStats totalFiles r_totalLines totalNonEmpty
             totalComments].
        rewrite !reduceSum_sumZ. repeat split; try reflexivity;
          apply (fold_accumulate_agree _ ([], []) summariesAgree_nil). }
      split; [reflexivity|]. split; [exact Hstats|].
      split; [exact Hagree|].
      destruct Hagree as ((Hget & _) & Hf & Ht & Hn & Hc).
      rewrite <- Hstats. auto.
    + rewrite (run_not_directory options targetPath t st Hs Hd).
      discriminate.
  - rewrite (run_missing options targetPath t Hs). discriminate.
Qed.

Lemma traversal_quiet (l : list Event) :
  Forall traversal l -> Forall (fun e => ~ surfacesError e) l.
Proof.
  apply Forall_impl. intros [p|p|p|a|c]; cbn; tauto.
Qed.

(** C7. [run] exits (code 2, after a message on stderr) exactly when
    [stat] on the root path throws or answers something that is not a
    directory, and then it has neither listed a directory nor read a file;
    a run that returns surfaces no error, and its records are those of the
    files of the walker's list that can be read: a file whose read throws
    yields no record, only the read is traced, and the loop over the files
    gives what it gives without that file. *)
Theorem run_path_error_and_skipped_files {host : Host}
    (targetPath : jstring) (options : Options) (t : list Event) :
  ((exists code, fst (run targetPath options t) = Exited code)
   <-> (fs_stat targetPath = None
        \/ exists st, fs_stat targetPath = Some st /\ isDirectory st = false))
  /\ (forall code, fst (run targetPath options t) = Exited code ->
      code = 2
      /\ exists msg,
          snd (run targetPath options t)
          = t ++ [EvStat targetPath; EvConsoleError msg; EvExit 2])
  /\ (forall r, fst (run targetPath options t) = Returned r ->
      fileStats r = analysed options (fileList r)
      /\ exists l,
          snd (run targetPath options t) = t ++ EvStat targetPath :: l
          /\ Forall (fun e => ~ surfacesError e) l)
  /\ (forall f, fs_readFile f = None ->
      analyzeFile f options t = (None, t ++ [EvReadFile f])
      /\ forall l1 l2,
          fst (analyzeAll options (l1 ++ f :: l2) t)
          = fst (analyzeAll options (l1 ++ l2) t)).
Proof.
  split; [|split; [|split]].
  - destruct (fs_stat targetPath) as [st|] eqn:Hs.
    + destruct (isDirectory st) eqn:Hd.
      * rewrite (run_directory options targetPath t st Hs Hd). split.
        -- intros [code H]. discriminate.
        -- intros [H | (st' & [= <-] & H)]; congruence.
      * rewrite (run_not_directory options targetPath t st Hs Hd). split.
        -- intros _. right. now exists st.
        -- intros _. now exists 2.
    + rewrite (run_missing options targetPath t Hs). split.
      * intros _. now left.
      * intros _. now exists 2.
  - intros code. destruct (fs_stat targetPath) as [st|] eqn:Hs.
    + destruct (isDirectory st) eqn:Hd.
      * rewrite (run_directory options targetPath t st Hs Hd). discriminate.
      * rewrite (run_not_directory options targetPath t st Hs Hd).
        intros [= <-]. split; [reflexivity|]. now eexists.
    + rewrite (run_missing options targetPath t Hs).
      intros [= <-]. split; [reflexivity|]. now eexists.
  - intros r. destruct (fs_stat targetPath) as [st|] eqn:Hs.
    + destruct (isDirectory st) eqn:Hd.
      * rewrite (run_directory options targetPath t st Hs Hd).
        intros [= <-]. split.
        -- unfold reportOf. cbn [fileStats fileList].
           now rewrite fold_accumulate_stats.
        -- destruct (run_directory_events options targetPath t st Hs Hd)
             as (l & E & Hl).
           exists l. split; [exact E | now apply traversal_quiet].
      * rewrite (run_not_directory options targetPath t st Hs Hd).
        discriminate.
    + rewrite (run_missing options targetPath t Hs). discriminate.
  - intros f Hf. split; [now apply analyzeFile_unreadable|].
    intros l1 l2. now rewrite !analyzeAll_fold, (analysed_unreadable _ _ _ _ Hf).
Qed.

(** C1. For every sequence of lines, every extension and either setting of
    comment detection, the counters [analyzeTextLines] returns satisfy
    [0 <= commentOnly <= nonEmpty <= total]; so do the three counters of
    every record [analyzeFile] returns. *)
Theorem analyzeTextLines_counts_ordered :
  (forall (lines : list jstring) (ext : jstring) (detectComments : bool),
      let r := analyzeTextLines lines ext detectComments in
      0 <= commentOnly r /\ commentOnly r <= nonEmpty r
      /\ nonEmpty r <= total r)
  /\ (forall (host : Host) (filePath : jstring) (options : Options)
             (t : list Event) (s : FileStat),
         fst (analyzeFile filePath options t) = Some s ->
         0 <= commentOnlyLines s /\ commentOnlyLines s <= nonEmptyLines s
         /\ nonEmptyLines s <= totalLines s).
Proof.
  split; [exact counts_ordered_lines|].
  intros host filePath options t s. unfold analyzeFile.
  rewrite bind_fst. destruct (fs_readFile filePath) as [content|];
    [|discriminate].
  cbn [emit fst snd ret]. intros [= <-].
  cbn [commentOnlyLines nonEmptyLines totalLines].
  apply counts_ordered_lines.
Qed.

(** C10. [analyzeFile] on a file that is read as the empty string returns
    a record with [totalLines = 1], [nonEmptyLines = 0] and
    [commentOnlyLines = 0]: [split] gives one empty line. *)
Theorem analyzeFile_empty_content {host : Host} (filePath : jstring)
    (options : Options) (t : list Event) :
  fs_readFile filePath = Some [] ->
  splitLines [] = [[]]
  /\ exists s,
      fst (analyzeFile filePath options t) = Some s
      /\ file s = filePath
      /\ totalLines s = 1 /\ nonEmptyLines s = 0 /\ commentOnlyLines s = 0.
Proof.
  intros H. split; [reflexivity|].
  unfold analyzeFile. rewrite bind_fst, H. cbn [emit fst snd ret].
  eexists. split; [reflexivity|]. repeat split.
Qed.

(* ===================================================================== *)
(** * Properties of the largest-files list *)
(* ===================================================================== *)

Section SortFacts.

Context {A : Type}.
Variable cmp : A -> A -> Z.

Lemma sort_insert_perm (x : A) (l : list A) :
  Permutation (x :: l) (sort_insert cmp x l).
Proof.
  induction l as [|y l IH]; cbn [sort_insert]; [reflexivity|].
  destruct (0 <? cmp x y); [|reflexivity].
  rewrite perm_swap. now apply perm_skip.
Qed.

Lemma sort_perm (l : list A) : Permutation l (sort cmp l).
Proof.
  induction l as [|x l IH]; cbn [sort]; [reflexivity|].
  rewrite <- sort_insert_perm. now apply perm_skip.
Qed.

(** Inserting [x] leaves the elements a predicate selects in the order
    they have in [x :: l], when no selected element has to go before
    another one. *)
Lemma sort_insert_filter (p : A -> bool) (x : A) (l : list A) :
  (forall y, p x = true -> p y = true -> cmp x y <= 0) ->
  filter p (sort_insert cmp x l) = filter p (x :: l).
Proof.
  intros H. induction l as [|y l IH]; cbn [sort_insert]; [reflexivity|].
  destruct (Z.ltb_spec 0 (cmp x y)) as [Hlt|Hle]; [|reflexivity].
  cbn [filter] in *. rewrite IH.
  destruct (p x) eqn:Hx; [|reflexivity].
  destruct (p y) eqn:Hy; [|reflexivity].
  specialize (H y eq_refl Hy). lia.
Qed.

End SortFacts.

Lemma sort_insert_sortedDesc (x : FileStat) (l : list FileStat) :
  sortedDesc l -> sortedDesc (sort_insert byTotalLinesDesc x l).
Proof.
  unfold sortedDesc.
  induction l as [|y l IH]; intros H; cbn [sort_insert].
  - repeat constructor.
  - apply StronglySorted_inv in H as [Hl Hy].
    unfold byTotalLinesDesc at 1.
    destruct (Z.ltb_spec 0 (totalLines y - totalLines x)) as [Hlt|Hle].
    + constructor; [now apply IH|].
      apply (Permutation_Forall (sort_insert_perm byTotalLinesDesc x l)).
      constructor; [lia | exact Hy].
    + constructor; [now constructor|].
      constructor; [lia|].
      eapply Forall_impl; [|exact Hy]. cbn. intros; lia.
Qed.

Lemma sort_sortedDesc (l : list FileStat) :
  sortedDesc (sort byTotalLinesDesc l).
Proof.
  induction l as [|x l IH]; cbn [sort].
  - constructor.
  - now apply sort_insert_sortedDesc.
Qed.

Lemma sort_tiesKeepOrder (l : list FileStat) :
  tiesKeepOrder l (sort byTotalLinesDesc l).
Proof.
  intros n. induction l as [|x l IH]; cbn [sort]; [reflexivity|].
  rewrite sort_insert_filter.
  - cbn [filter]. now rewrite IH.
  - intros y Hx Hy. apply Z.eqb_eq in Hx, Hy.
    unfold byTotalLinesDesc. lia.
Qed.

Lemma sort_stableSortDesc (l : list FileStat) :
  stableSortDesc l (sort byTotalLinesDesc l).
Proof.
  split; [apply sort_perm | split];
    [apply sort_sortedDesc | apply sort_tiesKeepOrder].
Qed.

Lemma filter_head_in (p : FileStat -> bool) (l : list FileStat)
    (a : FileStat) (r : list FileStat) :
  filter p l = a :: r -> In a l.
Proof.
  intros H. assert (In a (filter p l)) as Hin by (rewrite H; now left).
  now apply filter_In in Hin.
Qed.

(** Two lists sorted largest first that select the same records, in the
    same order, for every line count are the same list. *)
Lemma sortedDesc_unique (l1 : list FileStat) :
  forall l2,
    sortedDesc l1 -> sortedDesc l2 ->
    (forall n, filter (fun s => totalLines s =? n) l1
               = filter (fun s => totalLines s =? n) l2) ->
    l1 = l2.
Proof.
  unfold sortedDesc.
  induction l1 as [|a l1 IH]; intros [|b l2] H1 H2 Hf.
  - reflexivity.
  - specialize (Hf (totalLines b)). cbn [filter] in Hf.
    rewrite Z.eqb_refl in Hf. discriminate.
  - specialize (Hf (totalLines a)). cbn [filter] in Hf.
    rewrite Z.eqb_refl in Hf. discriminate.
  - apply StronglySorted_inv in H1 as [H1 Ha].
    apply StronglySorted_inv in H2 as [H2 Hb].
    rewrite Forall_forall in Ha, Hb.
    assert (totalLines a <= totalLines b) as Hab.
    { pose proof (Hf (totalLines a)) as E. cbn [filter] in E.
      rewrite Z.eqb_refl in E.
      destruct (totalLines b =? totalLines a) eqn:Eb;
        [apply Z.eqb_eq in Eb; lia|].
      symmetry in E. apply filter_head_in in E. now apply Hb. }
    assert (totalLines b <= totalLines a) as Hba.
    { pose proof (Hf (totalLines b)) as E. cbn [filter] in E.
      rewrite Z.eqb_refl in E.
      destruct (totalLines a =? totalLines b) eqn:Ea;
        [apply Z.eqb_eq in Ea; lia|].
      apply filter_head_in in E. now apply Ha. }
    assert (a = b) as ->.
    { pose proof (Hf (totalLines a)) as E. cbn [filter] in E.
      rewrite Z.eqb_refl in E.
      replace (totalLines b =? totalLines a) with true in E
        by (symmetry; apply Z.eqb_eq; lia).
      now inversion E. }
    f_equal. apply IH; [exact H1 | exact H2|].
    intros n. specialize (Hf n). cbn [filter] in Hf.
    destruct (totalLines b =? n); [now inversion Hf | exact Hf].
Qed.

Lemma stableSortDesc_unique (l l1 l2 : list FileStat) :
  stableSortDesc l l1 -> stableSortDesc l l2 -> l1 = l2.
Proof.
  intros (_ & S1 & T1) (_ & S2 & T2).
  apply sortedDesc_unique; [exact S1 | exact S2|].
  intros n. now rewrite T1, T2.
Qed.

Lemma slice2_firstn {A} (l : list A) (n : Z) :
  0 <= n -> slice2 l 0 n = firstn (Z.to_nat n) l.
Proof.
  intros Hn. unfold slice2.
  destruct (Z.ltb_spec n 0); [lia|]. cbn [Z.ltb Z.compare].
  replace (Z.min 0 (Z.of_nat (List.length l))) with 0 by lia.
  cbn [Z.to_nat skipn]. rewrite Z.sub_0_r.
  destruct (Z.le_ge_cases n (Z.of_nat (List.length l))) as [Hle|Hge].
  - now replace (Z.max (Z.min n (Z.of_nat (List.length l))) 0) with n by lia.
  - replace (Z.max (Z.min n (Z.of_nat (List.length l))) 0)
      with (Z.of_nat (List.length l)) by lia.
    rewrite Nat2Z.id, firstn_all, firstn_all2; [reflexivity | lia].
Qed.

(** C5. For every list of records and every integer [top >= 0], the
    largest-files list is the first [top] records of the list sorted by
    total line count, largest first, records with equal counts staying in
    discovery order (there is exactly one such sorted list); [top = 0]
    gives the empty list, and a [top] that is at least the number of
    records gives all of them, sorted. *)
Theorem largestFiles_stable_top (fileStats : list FileStat) (top : Z) :
  0 <= top ->
  exists sorted,
    stableSortDesc fileStats sorted
    /\ (forall l, stableSortDesc fileStats l -> l = sorted)
    /\ largestFiles fileStats top = firstn (Z.to_nat top) sorted
    /\ (top = 0 -> largestFiles fileStats top = [])
    /\ (Z.of_nat (List.length fileStats) <= top ->
        largestFiles fileStats top = sorted).
Proof.
  intros Htop. exists (sort byTotalLinesDesc fileStats).
  pose proof (sort_stableSortDesc fileStats) as Hs.
  unfold largestFiles. rewrite (slice2_firstn _ _ Htop).
  split; [exact Hs|]. split; [|split; [reflexivity|split]].
  - intros l Hl. exact (stableSortDesc_unique _ _ _ Hl Hs).
  - intros ->. reflexivity.
  - intros Hlen. apply firstn_all2.
    destruct Hs as (Hp & _). rewrite <- (Permutation_length Hp). lia.
Qed.

(* ===================================================================== *)
(** * The properties at work on concrete inputs *)
(* ===================================================================== *)

Lemma not_onlyWhitespace_by_forallb (s : jstring) :
  forallb isWhiteSpace s = false -> ~ onlyWhitespace s.
Proof.
  intros E H. unfold onlyWhitespace in H. rewrite Forall_forall in H.
  assert (forallb isWhiteSpace s = true) by (apply forallb_forall; exact H).
  congruence.
Qed.

Lemma not_beginsWith_by_startsWith (p s : jstring) :
  startsWith s p = false -> ~ beginsWith p s.
Proof.
  intros E H. apply startsWith_spec in H. congruence.
Qed.

Example walkDir_demo :
  fst (walkDir (host := Demo.host) (lit "proj") DEFAULT_OPTIONS [] [])
  = [lit "proj/src/a.ts"; lit "proj/src/Util.JS"; lit "proj/src/ghost.ts";
     lit "proj/empty.ts"; lit "proj/index.html"].
Proof. reflexivity. Qed.

Example run_demo_totals :
  let r := reportOf (host := Demo.host) DEFAULT_OPTIONS (lit "proj") [] in
  (totalFiles r, r_totalLines r, totalNonEmpty r, totalComments r)
  = (4, 9, 7, 4).
Proof. reflexivity. Qed.

(** Inside a c block: a line without [*/], a line that ends with [*/], and
    a line with code and a new comment start after [*/]. *)
Lemma inside_block_rule_witness :
  let st := mkScan 3 1 true (Some BlockC) in
  let raw1 := lit "   * still inside" in
  let raw2 := lit "     the end */  " in
  let raw3 := lit "   */ x = 1; /* again" in
  (trimmedOf raw1 <> [] /\ trimmedOf raw2 <> [] /\ trimmedOf raw3 <> [])
  /\ withinBlock st = true /\ blockType st = Some BlockC
  /\ (countedComment st (scanLine (lit "js") true st raw1)
      /\ withinBlock (scanLine (lit "js") true st raw1) = true
      /\ blockType (scanLine (lit "js") true st raw1) = Some BlockC)
  /\ (countedComment st (scanLine (lit "js") true st raw2)
      /\ withinBlock (scanLine (lit "js") true st raw2) = false
      /\ blockType (scanLine (lit "js") true st raw2) = None)
  /\ (notCountedComment st (scanLine (lit "js") true st raw3)
      /\ withinBlock (scanLine (lit "js") true st raw3) = false
      /\ blockType (scanLine (lit "js") true st raw3) = None).
Proof.
  cbn zeta.
  assert (trimmedOf (lit "   * still inside") <> []) as H1
    by (vm_compute; discriminate).
  assert (trimmedOf (lit "     the end */  ") <> []) as H2
    by (vm_compute; discriminate).
  assert (trimmedOf (lit "   */ x = 1; /* again") <> []) as H3
    by (vm_compute; discriminate).
  split; [auto|]. split; [reflexivity|]. split; [reflexivity|].
  split; [|split].
  - apply (inside_block_rule (lit "js") (mkScan 3 1 true (Some BlockC))
             (lit "   * still inside") BlockC H1 eq_refl eq_refl).
    apply not_occurs_by_indexOf. reflexivity.
  - apply (inside_block_rule (lit "js") (mkScan 3 1 true (Some BlockC))
             (lit "     the end */  ") BlockC H2 eq_refl eq_refl)
      with (pre := lit "the end ") (post := []).
    + apply firstOccurrence_by_indexOf; reflexivity.
    + constructor.
  - apply (inside_block_rule (lit "js") (mkScan 3 1 true (Some BlockC))
             (lit "   */ x = 1; /* again") BlockC H3 eq_refl eq_refl)
      with (pre := []) (post := lit " x = 1; /* again").
    + apply firstOccurrence_by_indexOf; reflexivity.
    + apply not_onlyWhitespace_by_forallb. reflexivity.
Defined.

(** Outside a block, in a TypeScript file: a [//] line, an opening [/*]
    line, two one-line block comments and a comment after code. *)
Lemma outside_block_c_style_rule_witness :
  let st := mkScan 2 0 false None in
  let ts := lit "ts" in
  let raw1 := lit "  // note" in
  let raw2 := lit "  /* opens here" in
  let raw3 := lit "  /* one line */  " in
  let raw4 := lit "  /* one line */ x = 1;" in
  let raw5 := lit "  x = 1; /* why" in
  isCStyle ts = true /\ withinBlock st = false
  /\ (trimmedOf raw1 <> [] /\ trimmedOf raw2 <> [] /\ trimmedOf raw3 <> []
      /\ trimmedOf raw4 <> [] /\ trimmedOf raw5 <> [])
  /\ (countedComment st (scanLine ts true st raw1)
      /\ withinBlock (scanLine ts true st raw1) = false)
  /\ (countedComment st (scanLine ts true st raw2)
      /\ withinBlock (scanLine ts true st raw2) = true
      /\ blockType (scanLine ts true st raw2) = Some BlockC)
  /\ (countedComment st (scanLine ts true st raw3)
      /\ withinBlock (scanLine ts true st raw3) = false)
  /\ (notCountedComment st (scanLine ts true st raw4)
      /\ withinBlock (scanLine ts true st raw4) = false)
  /\ (notCountedComment st (scanLine ts true st raw5)
      /\ withinBlock (scanLine ts true st raw5) = false).
Proof.
  cbn zeta.
  assert (trimmedOf (lit "  // note") <> []) as H1
    by (vm_compute; discriminate).
  assert (trimmedOf (lit "  /* opens here") <> []) as H2
    by (vm_compute; discriminate).
  assert (trimmedOf (lit "  /* one line */  ") <> []) as H3
    by (vm_compute; discriminate).
  assert (trimmedOf (lit "  /* one line */ x = 1;") <> []) as H4
    by (vm_compute; discriminate).
  assert (trimmedOf (lit "  x = 1; /* why") <> []) as H5
    by (vm_compute; discriminate).
  split; [reflexivity|]. split; [reflexivity|]. split; [auto 6|].
  split; [|split; [|split; [|split]]].
  - apply (outside_block_c_style_rule (lit "ts") (mkScan 2 0 false None)
             (lit "  // note") eq_refl H1 eq_refl).
    exists (lit " note"). reflexivity.
  - apply (outside_block_c_style_rule (lit "ts") (mkScan 2 0 false None)
             (lit "  /* opens here") eq_refl H2 eq_refl)
      with (rest := lit " opens here"); [reflexivity|].
    apply not_occurs_by_indexOf. reflexivity.
  - pose proof (outside_block_c_style_rule (lit "ts")
                  (mkScan 2 0 false None) (lit "  /* one line */  ")
                  eq_refl H3 eq_refl) as (_ & Hb & _).
    destruct (Hb (lit " one line */") eq_refl) as (_ & Hc).
    destruct (Hc (lit " one line ") []) as (Hyes & _ & Hw).
    + apply firstOccurrence_by_indexOf; reflexivity.
    + split; [apply Hyes; constructor | exact Hw].
  - pose proof (outside_block_c_style_rule (lit "ts")
                  (mkScan 2 0 false None) (lit "  /* one line */ x = 1;")
                  eq_refl H4 eq_refl) as (_ & Hb & _).
    destruct (Hb (lit " one line */ x = 1;") eq_refl) as (_ & Hc).
    destruct (Hc (lit " one line ") (lit " x = 1;")) as (_ & Hno & Hw).
    + apply firstOccurrence_by_indexOf; reflexivity.
    + split; [|exact Hw].
      apply Hno. apply not_onlyWhitespace_by_forallb. reflexivity.
  - apply (outside_block_c_style_rule (lit "ts") (mkScan 2 0 false None)
             (lit "  x = 1; /* why") eq_refl H5 eq_refl)
      with (pre := lit "x = 1; ") (post := lit " why").
    + apply firstOccurrence_by_indexOf; reflexivity.
    + discriminate.
    + apply not_beginsWith_by_startsWith. reflexivity.
Defined.

(** C8, as the specification states it, fails: the blank line inside the
    open block comment is not counted as comment-only. *)
Lemma blank_line_in_open_block_not_counted :
  opensUnterminated (lit "js") [] (lit "/* header") [[]; lit "   text"]
  /\ ~ everyLineCounted (lit "js") [] (lit "/* header") [[]; lit "   text"].
Proof.
  split.
  - split; [reflexivity|]. split; [reflexivity|]. split.
    + exists (lit " header"). split; [reflexivity|].
      apply not_occurs_by_indexOf. reflexivity.
    + repeat constructor; apply not_occurs_by_indexOf; reflexivity.
  - unfold everyLineCounted. vm_compute. discriminate.
Qed.

Lemma unterminated_block_counts_nonblank_witness :
  let pre := [lit "code();"] in
  let rest := [[]; lit "   text"; lit "  more text"] in
  opensUnterminated (lit "js") pre (lit "/* header") rest
  /\ everyNonBlankLineCounted (lit "js") pre (lit "/* header") rest
  /\ nonEmpty (analyzeTextLines (pre ++ lit "/* header" :: rest)
                 (lit "js") true)
     = nonEmpty (analyzeTextLines pre (lit "js") true)
       + nonBlankCount (lit "/* header" :: rest)
  /\ withinBlock (scanLines (lit "js") true (pre ++ lit "/* header" :: rest))
     = true.
Proof.
  cbn zeta.
  assert (opensUnterminated (lit "js") [lit "code();"] (lit "/* header")
            [[]; lit "   text"; lit "  more text"]) as H.
  { split; [reflexivity|]. split; [reflexivity|]. split.
    - exists (lit " header"). split; [reflexivity|].
      apply not_occurs_by_indexOf. reflexivity.
    - repeat constructor; apply not_occurs_by_indexOf; reflexivity. }
  split; [exact H|].
  exact (unterminated_block_counts_nonblank _ _ _ _ H).
Defined.



Lemma run_aggregates_witness :
  let r := reportOf (host := Demo.host) DEFAULT_OPTIONS (lit "proj") [] in
  fst (run (host := Demo.host) (lit "proj") DEFAULT_OPTIONS []) = Returned r
  /\ fileStats r = analysed (host := Demo.host) DEFAULT_OPTIONS (fileList r)
  /\ aggregatesAgree r
  /\ r_totalLines r
     = sumZ totalLines
         (analysed (host := Demo.host) DEFAULT_OPTIONS (fileList r))
  /\ r_totalLines r = 9.
Proof.
  cbn zeta.
  assert (fst (run (host := Demo.host) (lit "proj") DEFAULT_OPTIONS [])
          = Returned
              (reportOf (host := Demo.host) DEFAULT_OPTIONS (lit "proj") []))
    as H by reflexivity.
  split; [exact H|].
  destruct (run_aggregates (host := Demo.host) _ _ _ _ H)
    as (_ & Hstats & Hagree & _ & _ & Hlines & _).
  split; [exact Hstats|]. split; [exact Hagree|].
  split; [exact Hlines | reflexivity].
Defined.

Lemma largestFiles_stable_top_witness :
  let fileStats :=
    [mkFileStat (lit "a.ts") (lit "ts") 3 2 1;
     mkFileStat (lit "b.ts") (lit "ts") 7 7 0;
     mkFileStat (lit "c.js") (lit "js") 3 3 0] in
  0 <= 2
  /\ exists sorted,
      stableSortDesc fileStats sorted
      /\ (forall l, stableSortDesc fileStats l -> l = sorted)
      /\ largestFiles fileStats 2 = firstn (Z.to_nat 2) sorted
      /\ (2 = 0 -> largestFiles fileStats 2 = [])
      /\ (Z.of_nat (List.length fileStats) <= 2 ->
          largestFiles fileStats 2 = sorted).
Proof.
  cbn zeta. assert (0 <= 2) as H by lia.
  split; [exact H|].
  exact (largestFiles_stable_top _ 2 H).
Defined.

Example largestFiles_demo :
  map file
    (largestFiles [mkFileStat (lit "a.ts") (lit "ts") 3 2 1;
                   mkFileStat (lit "b.ts") (lit "ts") 7 7 0;
                   mkFileStat (lit "c.js") (lit "js") 3 3 0] 2)
  = [lit "b.ts"; lit "a.ts"].
Proof. reflexivity. Qed.

Lemma run_path_error_and_skipped_files_witness :
  fs_stat (Host := Demo.host) (lit "nowhere") = None
  /\ fs_readFile (Host := Demo.host) (lit "proj/src/ghost.ts") = None
  /\ fst (run (host := Demo.host) (lit "nowhere") DEFAULT_OPTIONS [])
     = Exited 2
  /\ (exists msg,
         snd (run (host := Demo.host) (lit "nowhere") DEFAULT_OPTIONS [])
         = [] ++ [EvStat (lit "nowhere"); EvConsoleError msg; EvExit 2])
  /\ (forall l1 l2,
         fst (analyzeAll (host := Demo.host) DEFAULT_OPTIONS
                (l1 ++ lit "proj/src/ghost.ts" :: l2) [])
         = fst (analyzeAll (host := Demo.host) DEFAULT_OPTIONS
                  (l1 ++ l2) [])).
Proof.
  destruct (run_path_error_and_skipped_files (host := Demo.host)
              (lit "nowhere") DEFAULT_OPTIONS []) as (Hiff & Hexit & _ & Hskip).
  assert (fs_stat (Host := Demo.host) (lit "nowhere") = None) as Hs
    by reflexivity.
  assert (fs_readFile (Host := Demo.host) (lit "proj/src/ghost.ts") = None)
    as Hr by reflexivity.
  split; [exact Hs|]. split; [exact Hr|].
  destruct (proj2 Hiff (or_introl Hs)) as (code & Hcode).
  destruct (Hexit code Hcode) as (-> & Hmsg).
  split; [exact Hcode|]. split; [exact Hmsg|].
  exact (proj2 (Hskip _ Hr)).
Defined.

Lemma analyzeFile_empty_content_witness :
  fs_readFile (Host := Demo.host) (lit "proj/empty.ts") = Some []
  /\ splitLines [] = [[]]
  /\ exists s,
      fst (analyzeFile (host := Demo.host) (lit "proj/empty.ts")
             DEFAULT_OPTIONS [])
      = Some s
      /\ file s = lit "proj/empty.ts"
      /\ totalLines s = 1 /\ nonEmptyLines s = 0 /\ commentOnlyLines s = 0.
Proof.
  assert (fs_readFile (Host := Demo.host) (lit "proj/empty.ts") = Some [])
    as H by reflexivity.
  split; [exact H|].
  exact (analyzeFile_empty_content (host := Demo.host) _ DEFAULT_OPTIONS [] H).
Defined.

Lemma analyzeTextLines_counts_ordered_witness :
  let s := mkFileStat (lit "proj/src/a.ts") (lit "ts") 3 2 1 in
  fst (analyzeFile (host := Demo.host) (lit "proj/src/a.ts")
         DEFAULT_OPTIONS [])
  = Some s
  /\ 0 <= commentOnlyLines s /\ commentOnlyLines s <= nonEmptyLines s
  /\ nonEmptyLines s <= totalLines s.
Proof.
  cbn zeta.
  assert (fst (analyzeFile (host := Demo.host) (lit "proj/src/a.ts")
                 DEFAULT_OPTIONS [])
          = Some (mkFileStat (lit "proj/src/a.ts") (lit "ts") 3 2 1)) as H
    by reflexivity.
  split; [exact H|].
  exact (proj2 analyzeTextLines_counts_ordered Demo.host _ _ _ _ H).
Defined.

(* ===================================================================== *)
(** * Further properties of the classifier *)
(* ===================================================================== *)

Lemma onlyWhitespace_forallb (s : jstring) :
  forallb isWhiteSpace s = true <-> onlyWhitespace s.
Proof.
  unfold onlyWhitespace. now rewrite forallb_forall, Forall_forall.
Qed.

Lemma onlyWhitespace_app (a b : jstring) :
  onlyWhitespace (a ++ b) <-> onlyWhitespace a /\ onlyWhitespace b.
Proof. apply Forall_app. Qed.

Lemma replaceTabs_app (a b : jstring) :
  replaceTabs (a ++ b) = replaceTabs a ++ replaceTabs b.
Proof. apply flat_map_app. Qed.

(** Replacing tabs by spaces keeps a text of whitespace one, and only
    such a text. *)
Lemma onlyWhitespace_replaceTabs (s : jstring) :
  onlyWhitespace (replaceTabs s) <-> onlyWhitespace s.
Proof.
  induction s as [|c s IH]; [reflexivity|].
  change (replaceTabs (c :: s))
    with ((if (c =? 9)%N then [32; 32; 32; 32]%N else [c]) ++ replaceTabs s).
  rewrite onlyWhitespace_app, IH.
  change (c :: s) with ([c] ++ s). rewrite onlyWhitespace_app.
  destruct (N.eqb_spec c 9) as [->|Hc]; [|reflexivity].
  split; intros [_ H]; (split; [|exact H]); repeat constructor.
Qed.

Lemma blankLine_spec (raw : jstring) :
  blankLine raw = forallb isWhiteSpace raw.
Proof.
  apply eq_true_iff_eq. unfold blankLine, trimmedOf.
  now rewrite trim_eqb_nil, onlyWhitespace_replaceTabs,
    onlyWhitespace_forallb.
Qed.

Lemma nonBlankCount_visibleLines (lines : list jstring) :
  nonBlankCount lines = visibleLines lines.
Proof.
  unfold nonBlankCount, visibleLines.
  rewrite (filter_ext _ (fun raw => negb (forallb isWhiteSpace raw)));
    [reflexivity|].
  intros raw. now rewrite blankLine_spec.
Qed.

Lemma scanLine_nonEmpty (ext : jstring) (detect : bool) (st : Scan)
    (raw : jstring) :
  s_nonEmpty (scanLine ext detect st raw)
  = s_nonEmpty st + (if blankLine raw then 0 else 1).
Proof.
  unfold scanLine, blankLine, insideBlock, outsideBlock.
  repeat break_if; cbn [s_nonEmpty incNonEmpty incCommentOnly openBlock
                        closeBlock]; lia.
Qed.

Lemma scanFrom_nonEmpty (ext : jstring) (detect : bool)
    (lines : list jstring) :
  forall st, s_nonEmpty (scanFrom ext detect st lines)
             = s_nonEmpty st + nonBlankCount lines.
Proof.
  induction lines as [|raw lines IH]; intros st.
  - unfold nonBlankCount. cbn. lia.
  - change (scanFrom ext detect st (raw :: lines))
      with (scanFrom ext detect (scanLine ext detect st raw) lines).
    rewrite IH, scanLine_nonEmpty, nonBlankCount_cons. lia.
Qed.

(** X1. [total] is the number of lines and [nonEmpty] the number of lines
    that hold a character which is not whitespace (a tab is whitespace),
    whatever the extension and the setting of comment detection. *)
Theorem nonEmpty_counts_visible_lines (lines : list jstring)
    (ext : jstring) (detectComments : bool) :
  total (analyzeTextLines lines ext detectComments)
  = Z.of_nat (List.length lines)
  /\ nonEmpty (analyzeTextLines lines ext detectComments)
     = visibleLines lines.
Proof.
  split; [reflexivity|].
  unfold analyzeTextLines, scanLines. cbn [nonEmpty].
  rewrite scanFrom_nonEmpty, nonBlankCount_visibleLines. reflexivity.
Qed.

Lemma scanLine_no_detection (ext : jstring) (st : Scan) (raw : jstring) :
  s_commentOnly (scanLine ext false st raw) = s_commentOnly st
  /\ withinBlock (scanLine ext false st raw) = withinBlock st
  /\ blockType (scanLine ext false st raw) = blockType st.
Proof.
  unfold scanLine. destruct (eqb (trimmedOf raw) []); cbn; auto.
Qed.

(** X2. With comment detection off, no line is counted as comment-only
    and no block comment is ever entered, whatever the file holds. *)
Theorem no_detection_no_comments (lines : list jstring) (ext : jstring) :
  commentOnly (analyzeTextLines lines ext false) = 0
  /\ withinBlock (scanLines ext false lines) = false
  /\ blockType (scanLines ext false lines) = None.
Proof.
  unfold analyzeTextLines, scanLines. cbn [commentOnly].
  enough (forall st,
            s_commentOnly (scanFrom ext false st lines) = s_commentOnly st
            /\ withinBlock (scanFrom ext false st lines) = withinBlock st
            /\ blockType (scanFrom ext false st lines) = blockType st) as H
    by (apply (H scanInit)).
  induction lines as [|raw lines IH]; intros st; [auto|].
  change (scanFrom ext false st (raw :: lines))
    with (scanFrom ext false (scanLine ext false st raw) lines).
  destruct (IH (scanLine ext false st raw)) as (Hc & Hw & Hb).
  destruct (scanLine_no_detection ext st raw) as (Hc' & Hw' & Hb').
  rewrite Hc, Hw, Hb. auto.
Qed.

Lemma scanLine_other_family (ext : jstring) (detect : bool) (st : Scan)
    (raw : jstring) :
  isCStyle ext = false -> isHtmlLike ext = false ->
  withinBlock st = false ->
  s_commentOnly (scanLine ext detect st raw) = s_commentOnly st
  /\ withinBlock (scanLine ext detect st raw) = false.
Proof.
  intros Hc Hh Hw. unfold scanLine, outsideBlock.
  rewrite Hc, Hh. cbn [withinBlock incNonEmpty]. rewrite Hw.
  repeat break_if; cbn; auto.
Qed.

(** X3. A file whose extension is in neither family (not c-style, not
    html-like) never has a comment-only line, with detection on or off. *)
Theorem other_family_no_comments (lines : list jstring) (ext : jstring)
    (detectComments : bool) :
  isCStyle ext = false -> isHtmlLike ext = false ->
  commentOnly (analyzeTextLines lines ext detectComments) = 0.
Proof.
  intros Hc Hh. unfold analyzeTextLines, scanLines. cbn [commentOnly].
  enough (forall st, withinBlock st = false ->
            s_commentOnly (scanFrom ext detectComments st lines)
            = s_commentOnly st) as H by (now rewrite H).
  induction lines as [|raw lines IH]; intros st Hw; [reflexivity|].
  change (scanFrom ext detectComments st (raw :: lines))
    with (scanFrom ext detectComments
            (scanLine ext detectComments st raw) lines).
  destruct (scanLine_other_family ext detectComments st raw Hc Hh Hw)
    as (Hc' & Hw').
  now rewrite IH.
Qed.

Lemma families_disjoint (ext : jstring) :
  isCStyle ext = true -> isHtmlLike ext = false.
Proof.
  unfold isCStyle, isHtmlLike, includes. cbn [existsb].
  rewrite !orb_true_iff, !eqb_eq.
  intros H. repeat (destruct H as [H|H]; [subst ext; reflexivity|]).
  discriminate.
Qed.

(** X4. After any number of lines of any file, the two variables of the
    block state agree: [withinBlock] is set exactly when [blockType] is
    not null, a c block is only open in a c-style file and an html block
    only in an html-like file; and no extension is in both families. *)
Theorem block_state_consistent (lines : list jstring) (ext : jstring)
    (detectComments : bool) :
  let st := scanLines ext detectComments lines in
  (withinBlock st = true <-> blockType st <> None)
  /\ (blockType st = Some BlockC -> isCStyle ext = true)
  /\ (blockType st = Some BlockHtml -> isHtmlLike ext = true)
  /\ (isCStyle ext = true -> isHtmlLike ext = false).
Proof.
  cbn zeta.
  pose proof (scanFrom_blockStateOk ext detectComments lines scanInit
                eq_refl) as H.
  unfold scanLines, blockStateOk in *.
  destruct (blockType (scanFrom ext detectComments scanInit lines))
    as [[|]|].
  - destruct H as (Hw & Hc). rewrite Hw.
    repeat split; try congruence; apply families_disjoint.
  - destruct H as (Hw & Hc & Hh). rewrite Hw.
    repeat split; try congruence; apply families_disjoint.
  - rewrite H. repeat split; try congruence; apply families_disjoint.
Qed.

Lemma outsideBlock_html_other (ext trimmed : jstring) (st : Scan) :
  isCStyle ext = false -> isHtmlLike ext = true ->
  ~ beginsWith (lit "<!--") trimmed ->
  outsideBlock ext trimmed st = st.
Proof.
  intros Hc Hh H. unfold outsideBlock.
  now rewrite Hc, Hh, (startsWith_false _ _ H).
Qed.

Lemma outsideBlock_html_open (ext trimmed : jstring) (st : Scan) :
  isCStyle ext = false -> isHtmlLike ext = true ->
  beginsWith (lit "<!--") trimmed -> ~ occurs (lit "-->") trimmed ->
  outsideBlock ext trimmed st = openBlock BlockHtml (incCommentOnly st).
Proof.
  intros Hc Hh Hb H. unfold outsideBlock.
  apply startsWith_spec in Hb.
  now rewrite Hc, Hh, Hb, indexOf_0, (indexOf_go_absent _ _ _ H).
Qed.

Lemma outsideBlock_html_single_line (ext trimmed pre post : jstring)
    (st : Scan) :
  isCStyle ext = false -> isHtmlLike ext = true ->
  beginsWith (lit "<!--") trimmed ->
  firstOccurrence (lit "-->") trimmed pre post ->
  outsideBlock ext trimmed st
  = if eqb (trim post) [] then incCommentOnly st else st.
Proof.
  intros Hc Hh Hb H. unfold outsideBlock.
  apply startsWith_spec in Hb.
  rewrite Hc, Hh, Hb, indexOf_0, (indexOf_go_first _ _ _ _ _ H), Z.add_0_l.
  destruct (Z.eqb_spec (Z.of_nat (List.length pre)) (-1)); [lia|].
  change 3 with (Z.of_nat (List.length (lit "-->"))).
  now rewrite (slice_after_first _ _ _ _ H).
Qed.

(** X5. A non-blank line of an html-like file read outside a block
    comment: a line that does not start with [<!--] is not counted (a
    [//] line included); a line that starts with [<!--] and holds no
    [-->] is counted and opens an html block; a line that starts with
    [<!--] and holds [-->] is counted exactly when only whitespace follows
    the first [-->] of the line, and opens no block.  The search for
    [-->] starts at the beginning of the line, not after the opening
    token. *)
Theorem outside_block_html_rule (ext : jstring) (st : Scan)
    (raw : jstring) :
  isCStyle ext = false -> isHtmlLike ext = true ->
  trimmedOf raw <> [] -> withinBlock st = false ->
  let trimmed := trimmedOf raw in
  let st' := scanLine ext true st raw in
  (~ beginsWith (lit "<!--") trimmed ->
   notCountedComment st st' /\ withinBlock st' = false)
  /\ (beginsWith (lit "<!--") trimmed ->
      (~ occurs (lit "-->") trimmed ->
       countedComment st st'
       /\ withinBlock st' = true /\ blockType st' = Some BlockHtml)
      /\ (forall pre post, firstOccurrence (lit "-->") trimmed pre post ->
          (onlyWhitespace post -> countedComment st st')
          /\ (~ onlyWhitespace post -> notCountedComment st st')
          /\ withinBlock st' = false)).
Proof.
  intros Hc Hh Hne Hw. cbn zeta.
  rewrite (scanLine_outside ext st raw (trimmed_nonblank _ Hne) Hw).
  unfold countedComment, notCountedComment. split.
  - intros H. rewrite (outsideBlock_html_other _ _ _ Hc Hh H).
    cbn [incNonEmpty s_commentOnly withinBlock]. auto.
  - intros Hb. split.
    + intros H. rewrite (outsideBlock_html_open _ _ _ Hc Hh Hb H).
      cbn. auto.
    + intros pre post H.
      rewrite (outsideBlock_html_single_line _ _ _ _ _ Hc Hh Hb H).
      split; [|split].
      * intros Hp. apply trim_eqb_nil in Hp. now rewrite Hp.
      * intros Hp. now rewrite (not_onlyWhitespace_trim _ Hp).
      * destruct (eqb (trim post) []); cbn; exact Hw.
Qed.

Lemma trimStart_app_ws (a s : jstring) :
  onlyWhitespace a -> trimStart (a ++ s) = trimStart s.
Proof.
  induction 1 as [|c a Hc _ IH]; [reflexivity|].
  cbn [app trimStart]. now rewrite Hc.
Qed.

Lemma trimStart_app_keep (s b : jstring) :
  trimStart s <> [] -> trimStart (s ++ b) = trimStart s ++ b.
Proof.
  induction s as [|c s IH]; cbn [app trimStart]; [congruence|].
  destruct (isWhiteSpace c); [exact IH | reflexivity].
Qed.

Lemma trim_app_ws_l (a s : jstring) :
  onlyWhitespace a -> trim (a ++ s) = trim s.
Proof. intros H. unfold trim. now rewrite (trimStart_app_ws _ _ H). Qed.

Lemma trim_app_ws_r (s b : jstring) :
  onlyWhitespace b -> trim (s ++ b) = trim s.
Proof.
  intros Hb. destruct (trimStart s) eqn:E.
  - assert (onlyWhitespace s) as Hs by (now apply trimStart_nil).
    assert (trim s = []) as -> by (now apply trim_nil).
    apply trim_nil. now apply onlyWhitespace_app.
  - unfold trim, trimEnd. rewrite trimStart_app_keep, E; [|congruence].
    rewrite rev_app_distr, trimStart_app_ws; [reflexivity|].
    now apply onlyWhitespace_rev.
Qed.

Lemma trimmedOf_padded (a raw b : jstring) :
  onlyWhitespace a -> onlyWhitespace b ->
  trimmedOf (a ++ raw ++ b) = trimmedOf raw.
Proof.
  intros Ha Hb. unfold trimmedOf. rewrite !replaceTabs_app.
  rewrite trim_app_ws_l, trim_app_ws_r;
    [reflexivity | |]; now apply onlyWhitespace_replaceTabs.
Qed.

(** X6. Whitespace before and after the text of a line (spaces, tabs,
    any ECMAScript whitespace) changes nothing to the way the line is
    classified: the loop reaches the same state. *)
Theorem indentation_irrelevant (ext : jstring) (detectComments : bool)
    (st : Scan) (a raw b : jstring) :
  onlyWhitespace a -> onlyWhitespace b ->
  scanLine ext detectComments st (a ++ raw ++ b)
  = scanLine ext detectComments st raw.
Proof.
  intros Ha Hb. unfold scanLine.
  now rewrite (trimmedOf_padded a raw b Ha Hb).
Qed.

(** Inside a block of kind [k], lines without the end token of [k] keep
    the block open, and each of them that is not blank is counted. *)
Lemma scanFrom_inside_kind (ext : jstring) (k : BlockType)
    (rest : list jstring) :
  forall st,
    withinBlock st = true -> blockType st = Some k ->
    Forall (fun raw => ~ occurs (endToken k) (trimmedOf raw)) rest ->
    scanFrom ext true st rest
    = mkScan (s_nonEmpty st + nonBlankCount rest)
        (s_commentOnly st + nonBlankCount rest) true (Some k).
Proof.
  induction rest as [|raw rest IH]; intros st Hw Hk Hall.
  - destruct st; cbn in *; subst. unfold nonBlankCount; cbn.
    now rewrite !Z.add_0_r.
  - inversion Hall as [|? ? Hraw Hrest]; subst.
    change (scanFrom ext true st (raw :: rest))
      with (scanFrom ext true (scanLine ext true st raw) rest).
    rewrite nonBlankCount_cons.
    destruct (blankLine raw) eqn:Hb.
    + rewrite (scanLine_blank _ _ _ _ Hb), (IH st Hw Hk Hrest).
      reflexivity.
    + rewrite (scanLine_inside ext st raw k Hb Hw Hk).
      rewrite (insideBlock_absent k _ _ Hraw).
      rewrite IH; [|exact Hw|exact Hk|exact Hrest].
      cbn [incCommentOnly incNonEmpty s_nonEmpty s_commentOnly].
      f_equal; lia.
Qed.

(** X7. In an html-like file read with comment detection on, a comment
    that opens with [<!--] at the start of a trimmed line and is not
    closed before the end of the file: every line from the opening line on
    that is not blank is counted as comment-only (and no blank one), and
    the html block is still open at the end. *)
Theorem unterminated_html_block_counts_nonblank (ext : jstring)
    (pre : list jstring) (opening : jstring) (rest : list jstring) :
  opensUnterminatedHtml ext pre opening rest ->
  commentOnly (analyzeTextLines (pre ++ opening :: rest) ext true)
  = commentOnly (analyzeTextLines pre ext true)
    + nonBlankCount (opening :: rest)
  /\ withinBlock (scanLines ext true (pre ++ opening :: rest)) = true
  /\ blockType (scanLines ext true (pre ++ opening :: rest))
     = Some BlockHtml.
Proof.
  intros (Hc & Hh & Hw & Hb & Hno & Hrest).
  unfold analyzeTextLines, scanLines in *. cbn [commentOnly].
  rewrite scanFrom_app. set (st := scanFrom ext true scanInit pre) in *.
  assert (blankLine opening = false) as Hnb.
  { apply (beginsWith_nonblank (lit "<!--")); [discriminate | exact Hb]. }
  change (scanFrom ext true st (opening :: rest))
    with (scanFrom ext true (scanLine ext true st opening) rest).
  rewrite (scanLine_outside ext st opening Hnb Hw).
  rewrite (outsideBlock_html_open _ _ _ Hc Hh Hb Hno).
  rewrite (scanFrom_inside_kind ext BlockHtml);
    [|reflexivity|reflexivity|exact Hrest].
  rewrite nonBlankCount_cons, Hnb.
  cbn [openBlock incCommentOnly incNonEmpty s_nonEmpty s_commentOnly
       withinBlock blockType].
  repeat split; lia.
Qed.

(* ===================================================================== *)
(** * Properties of the split into lines *)
(* ===================================================================== *)

Lemma oneLine_cons (c : char16) (s : jstring) :
  oneLine (c :: s) <-> (c <> 10%N /\ c <> 13%N) /\ oneLine s.
Proof.
  unfold oneLine. split.
  - intros H. split; [apply H; now left|]. intros d Hd. apply H. now right.
  - intros [Hc Hs] d [<-|Hd]; [exact Hc | now apply Hs].
Qed.

Lemma oneLine_rev (s : jstring) : oneLine s -> oneLine (rev s).
Proof. intros H c Hc. apply H. now apply in_rev. Qed.

Lemma oneLine_nil : oneLine [].
Proof. intros c []. Qed.

(** The scan runs through a text without terminator and keeps it in the
    current piece. *)
Lemma splitLines_go_line (e rest cur : jstring) :
  oneLine e ->
  splitLines_go (e ++ rest) cur = splitLines_go rest (rev e ++ cur).
Proof.
  revert cur. induction e as [|c e IH]; intros cur H; [reflexivity|].
  apply oneLine_cons in H as [[H10 H13] He].
  cbn [app splitLines_go rev].
  apply N.eqb_neq in H10, H13. rewrite H10, H13, (IH _ He).
  now rewrite <- app_assoc.
Qed.

Lemma splitLines_go_pieces (n : nat) :
  forall s cur,
    (List.length s <= n)%nat -> oneLine cur ->
    splitLines_go s cur <> [] /\ Forall oneLine (splitLines_go s cur).
Proof.
  induction n as [|n IH]; intros s cur Hlen Hcur.
  - destruct s; [|cbn in Hlen; lia].
    cbn [splitLines_go]. split; [discriminate|].
    constructor; [now apply oneLine_rev | constructor].
  - destruct s as [|c rest].
    + cbn [splitLines_go]. split; [discriminate|].
      constructor; [now apply oneLine_rev | constructor].
    + cbn [List.length] in Hlen. cbn [splitLines_go].
      destruct (N.eqb_spec c 13) as [->|H13].
      * destruct rest as [|d rest'].
        -- split; [discriminate|].
           constructor; [now apply oneLine_rev|].
           apply (IH [] []); [cbn; lia | apply oneLine_nil].
        -- cbn [List.length] in Hlen.
           destruct (N.eqb_spec d 10) as [->|H10];
             (split; [discriminate|]);
             (constructor; [now apply oneLine_rev|]).
           ++ apply (IH rest' []); [lia | apply oneLine_nil].
           ++ apply (IH (d :: rest') []); [cbn; lia | apply oneLine_nil].
      * destruct (N.eqb_spec c 10) as [->|H10].
        -- split; [discriminate|].
           constructor; [now apply oneLine_rev|].
           apply (IH rest []); [lia | apply oneLine_nil].
        -- apply IH; [lia|]. now apply oneLine_cons.
Qed.

Lemma splitLines_nonempty (s : jstring) :
  (1 <= List.length (splitLines s))%nat.
Proof.
  destruct (splitLines_go_pieces (List.length s) s [] (le_n _) oneLine_nil)
    as [Hne _].
  unfold splitLines. destruct (splitLines_go s []); [congruence|].
  cbn [List.length]. lia.
Qed.

(** X8. [split] never returns an empty array, and no piece holds a line
    feed or a carriage return. *)
Theorem splitLines_pieces (s : jstring) :
  splitLines s <> [] /\ Forall oneLine (splitLines s).
Proof.
  unfold splitLines.
  apply (splitLines_go_pieces (List.length s)); [lia | apply oneLine_nil].
Qed.

Lemma join_cons2 (sep x y : jstring) (l : list jstring) :
  join sep (x :: y :: l) = x ++ sep ++ join sep (y :: l).
Proof. reflexivity. Qed.

Lemma join_CR_head (y : jstring) (l : list jstring) (d : char16)
    (r : jstring) :
  oneLine y -> join [13%N] (y :: l) = d :: r -> d <> 10%N.
Proof.
  intros Hy E. destruct y as [|c y].
  - destruct l as [|z l]; [discriminate|].
    rewrite join_cons2 in E. inversion E. discriminate.
  - assert (d = c) as ->.
    { destruct l; [|rewrite join_cons2 in E]; now inversion E. }
    apply oneLine_cons in Hy. tauto.
Qed.

Lemma splitLines_go_join (sep : jstring) (lines : list jstring) :
  lineTerminator sep ->
  forall x cur,
    Forall oneLine (x :: lines) ->
    splitLines_go (join sep (x :: lines)) cur = (rev cur ++ x) :: lines.
Proof.
  intros Hsep. induction lines as [|y l IH]; intros x cur Hall.
  - inversion Hall as [|? ? Hx _]; subst. cbn [join].
    rewrite <- (app_nil_r x) at 1. rewrite (splitLines_go_line _ _ _ Hx).
    cbn [splitLines_go]. now rewrite rev_app_distr, rev_involutive.
  - inversion Hall as [|? ? Hx Hrest]; subst.
    rewrite join_cons2, (splitLines_go_line _ _ _ Hx).
    assert (rev (rev x ++ cur) = rev cur ++ x) as Hrev
      by (now rewrite rev_app_distr, rev_involutive).
    specialize (IH y [] Hrest). cbn [rev app] in IH.
    destruct Hsep as [-> | [-> | ->]]; cbn [app splitLines_go N.eqb Pos.eqb].
    + now rewrite Hrev, IH.
    + now rewrite Hrev, IH.
    + destruct (join [13%N] (y :: l)) as [|d r] eqn:E.
      * rewrite Hrev. cbn [splitLines_go] in *. now rewrite IH.
      * assert (d <> 10%N) as Hd.
        { inversion Hrest; subst. eapply join_CR_head; eauto. }
        apply N.eqb_neq in Hd. now rewrite Hd, Hrev, IH.
Qed.

(** X9. Splitting undoes joining: lines without line feed or carriage
    return, joined by any one of the terminators [\n], [\r\n] and [\r],
    are given back by [split], in order (at least one line). *)
Theorem splitLines_join (sep : jstring) (lines : list jstring) :
  lineTerminator sep -> lines <> [] -> Forall oneLine lines ->
  splitLines (join sep lines) = lines.
Proof.
  intros Hsep Hne Hall. destruct lines as [|x lines]; [congruence|].
  unfold splitLines. now rewrite (splitLines_go_join sep lines Hsep x []).
Qed.

Lemma splitLines_go_trailing (n : nat) :
  forall s cur,
    (List.length s <= n)%nat -> last s 0%N <> 13%N ->
    splitLines_go (s ++ [10%N]) cur = splitLines_go s cur ++ [[]].
Proof.
  induction n as [|n IH]; intros s cur Hlen Hlast.
  - destruct s; [reflexivity | cbn in Hlen; lia].
  - destruct s as [|c rest]; [reflexivity|].
    cbn [List.length] in Hlen. cbn [app splitLines_go].
    destruct (N.eqb_spec c 13) as [->|H13].
    + destruct rest as [|d rest']; [cbn in Hlast; congruence|].
      cbn [List.length] in Hlen. cbn [app].
      destruct (N.eqb_spec d 10) as [->|H10].
      * rewrite IH; [reflexivity | lia|].
        destruct rest'; [cbn; discriminate | exact Hlast].
      * rewrite (IH (d :: rest')); [reflexivity | cbn; lia | exact Hlast].
    + assert (last rest 0%N <> 13%N) as Hl.
      { destruct rest; [cbn; discriminate | exact Hlast]. }
      destruct (N.eqb_spec c 10) as [->|H10].
      * rewrite IH; [reflexivity | lia | exact Hl].
      * apply IH; [lia | exact Hl].
Qed.

(** X10. A line feed at the end of a content that does not end with a
    carriage return adds one line, an empty one: [totalLines] grows by
    one, the other two counters do not change. *)
Theorem trailing_newline_adds_a_line (content ext : jstring)
    (detectComments : bool) :
  last content 0%N <> 13%N ->
  let c := analyzeTextLines (splitLines content) ext detectComments in
  splitLines (content ++ [10%N]) = splitLines content ++ [[]]
  /\ analyzeTextLines (splitLines (content ++ [10%N])) ext detectComments
     = mkCounts (total c + 1) (nonEmpty c) (commentOnly c).
Proof.
  intros Hlast. cbn zeta.
  assert (splitLines (content ++ [10%N]) = splitLines content ++ [[]]) as E.
  { unfold splitLines.
    now apply (splitLines_go_trailing (List.length content)). }
  split; [exact E|]. rewrite E.
  unfold analyzeTextLines, scanLines. cbn [total nonEmpty commentOnly].
  rewrite scanFrom_app, length_app.
  change (scanFrom ext detectComments
            (scanFrom ext detectComments scanInit (splitLines content)) [[]])
    with (scanLine ext detectComments
            (scanFrom ext detectComments scanInit (splitLines content)) []).
  rewrite (scanLine_blank _ _ _ [] eq_refl).
  f_equal. cbn [List.length]. lia.
Qed.

(* ===================================================================== *)
(** * Properties of [popt] *)
(* ===================================================================== *)

Lemma splitComma_go_item (e rest cur : jstring) :
  ~ In 44%N e ->
  splitComma_go (e ++ rest) cur = splitComma_go rest (rev e ++ cur).
Proof.
  revert cur. induction e as [|c e IH]; intros cur H; [reflexivity|].
  cbn [app splitComma_go rev].
  destruct (N.eqb_spec c 44) as [->|Hc]; [exfalso; apply H; now left|].
  rewrite IH; [now rewrite <- app_assoc|].
  intros Hin. apply H. now right.
Qed.

Lemma splitComma_go_join (l : list jstring) :
  forall x cur,
    Forall (fun p => ~ In 44%N p) (x :: l) ->
    splitComma_go (join [44%N] (x :: l)) cur = (rev cur ++ x) :: l.
Proof.
  induction l as [|y l IH]; intros x cur Hall;
    inversion Hall as [|? ? Hx Hrest]; subst.
  - cbn [join]. rewrite <- (app_nil_r x) at 1.
    rewrite (splitComma_go_item _ _ _ Hx). cbn [splitComma_go].
    now rewrite rev_app_distr, rev_involutive.
  - rewrite join_cons2, (splitComma_go_item _ _ _ Hx).
    cbn [app splitComma_go N.eqb Pos.eqb].
    rewrite (IH y [] Hrest), rev_app_distr, rev_involutive. reflexivity.
Qed.

Lemma splitComma_go_no_comma (s : jstring) :
  forall cur, ~ In 44%N cur ->
              Forall (fun p => ~ In 44%N p) (splitComma_go s cur).
Proof.
  induction s as [|c s IH]; intros cur Hcur; cbn [splitComma_go].
  - repeat constructor. intros H. apply Hcur. now apply in_rev.
  - destruct (N.eqb_spec c 44) as [->|Hc].
    + constructor; [intros H; apply Hcur; now apply in_rev|].
      apply IH. intros [].
    + apply IH. intros [E|H]; [congruence | now apply Hcur].
Qed.

Lemma trimStart_suffix (s : jstring) : exists p, s = p ++ trimStart s.
Proof.
  induction s as [|c s [p IH]]; [now exists []|].
  cbn [trimStart]. destruct (isWhiteSpace c); [|now exists []].
  exists (c :: p). cbn [app]. now rewrite <- IH.
Qed.

Lemma trimStart_In (s : jstring) (c : char16) :
  In c (trimStart s) -> In c s.
Proof.
  destruct (trimStart_suffix s) as [p E]. intros H. rewrite E.
  apply in_or_app. now right.
Qed.

Lemma trim_In (s : jstring) (c : char16) : In c (trim s) -> In c s.
Proof.
  unfold trim, trimEnd. intros H.
  apply in_rev, trimStart_In in H. apply in_rev in H.
  now apply trimStart_In.
Qed.

Lemma trimStart_head (s : jstring) :
  match trimStart s with
  | [] => True
  | c :: _ => isWhiteSpace c = false
  end.
Proof.
  induction s as [|c s IH]; [exact I|].
  cbn [trimStart]. destruct (isWhiteSpace c) eqn:E; [exact IH | exact E].
Qed.

Lemma trimStart_fixed (s : jstring) :
  match s with [] => True | c :: _ => isWhiteSpace c = false end ->
  trimStart s = s.
Proof. destruct s as [|c s]; [reflexivity|]. cbn. now intros ->. Qed.

(** [trim] removes everything it can: trimming twice is trimming once. *)
Lemma trim_idempotent (s : jstring) : trim (trim s) = trim s.
Proof.
  unfold trim, trimEnd.
  set (u := trimStart s). set (v := trimStart (rev u)).
  assert (trimStart (rev v) = rev v) as E1.
  { apply trimStart_fixed.
    destruct (trimStart_suffix (rev u)) as [p Hp]. fold v in Hp.
    apply (f_equal (@rev _)) in Hp.
    rewrite rev_involutive, rev_app_distr in Hp.
    pose proof (trimStart_head s) as Hu. fold u in Hu.
    destruct (rev v) as [|c r]; [exact I|].
    rewrite Hp in Hu. exact Hu. }
  rewrite E1, rev_involutive.
  assert (trimStart v = v) as E2
    by (apply trimStart_fixed, trimStart_head).
  now rewrite E2.
Qed.

(** X11. Every entry [popt] returns is not empty, has no whitespace
    around it and holds no comma; an absent or empty argument gives no
    entry. *)
Theorem popt_items (s : option jstring) :
  Forall optionItem (popt s) /\ popt None = [] /\ popt (Some []) = [].
Proof.
  split; [|split; reflexivity].
  destruct s as [s|]; [|constructor]. unfold popt.
  destruct (eqb s []); [constructor|].
  apply Forall_forall. intros p Hp.
  apply filter_In in Hp as [Hin Hne].
  apply in_map_iff in Hin as (q & <- & Hq).
  repeat split.
  - apply eqb_nil_false. now apply negb_true_iff.
  - apply trim_idempotent.
  - intros H. apply trim_In in H.
    pose proof (splitComma_go_no_comma s [] (fun f => f)) as Hall.
    rewrite Forall_forall in Hall. exact (Hall q Hq H).
Qed.

(** X12. [popt] undoes a join by commas: entries that are not empty, have
    no whitespace around them and hold no comma, once joined by commas,
    are given back in order. *)
Theorem popt_join (l : list jstring) :
  Forall optionItem l -> popt (Some (join [44%N] l)) = l.
Proof.
  intros Hall. destruct l as [|x l]; [reflexivity|].
  unfold popt.
  assert (eqb (join [44%N] (x :: l)) [] = false) as ->.
  { apply eqb_nil_false. inversion Hall as [|? ? (Hx & _) _]; subst.
    destruct x; [congruence|]. destruct l; discriminate. }
  unfold splitComma. rewrite splitComma_go_join.
  - cbn [rev app].
    assert (forall m, Forall optionItem m ->
              filter (fun p => negb (eqb p [])) (map trim m) = m) as H.
    { induction 1 as [|p m (Hp & Ht & _) _ IH]; [reflexivity|].
      cbn [map filter]. rewrite Ht, IH.
      apply eqb_nil_false in Hp. now rewrite Hp. }
    now apply H.
  - eapply Forall_impl; [|exact Hall]. intros p (_ & _ & H). exact H.
Qed.

(* ===================================================================== *)
(** * Further properties of the walker, the analyzer and [run] *)
(* ===================================================================== *)

Lemma forOf_trace {A B} (body : B -> A -> IO B) (g : A -> list Event)
    (l : list A) :
  (forall x, In x l -> forall b t, snd (body b x t) = t ++ g x) ->
  forall b t, snd (forOf body l b t) = t ++ flat_map g l.
Proof.
  induction l as [|x l IH]; intros H b t; cbn [forOf flat_map].
  - cbn. now rewrite app_nil_r.
  - rewrite bind_snd, IH.
    + rewrite (H x (or_introl eq_refl)). now rewrite app_assoc.
    + intros y Hy. apply H. now right.
Qed.

Lemma forOf_ext {A B} (f g : B -> A -> IO B) (l : list A) :
  (forall x, In x l -> forall b t, f b x t = g b x t) ->
  forall b t, forOf f l b t = forOf g l b t.
Proof.
  induction l as [|x l IH]; intros H b t; [reflexivity|].
  cbn [forOf]. unfold bind. rewrite (H x (or_introl eq_refl)).
  destruct (g b x t) as [b' t']. apply IH. intros y Hy. apply H. now right.
Qed.

Section MoreRunFacts.

Context {host : Host}.
Variable options : Options.

Lemma listedBelow_app (dir : jstring) (c1 c2 : list (list jstring)) :
  listedBelow options dir (c1 ++ c2)
  = listedBelow options dir c1 ++ listedBelow options dir c2.
Proof. unfold listedBelow. now rewrite filter_app, map_app. Qed.

Lemma listedBelow_flat_map (dir : jstring) (entries : list Dirent) :
  flat_map (fun e => listedBelow options dir (dirsOfEntry e)) entries
  = listedBelow options dir (flat_map dirsOfEntry entries).
Proof.
  induction entries as [|e entries IH]; [reflexivity|].
  cbn [flat_map]. now rewrite listedBelow_app, IH.
Qed.

Lemma listedBelow_below (dir name : jstring) (chains : list (list jstring)) :
  listedBelow options dir (map (cons name) chains)
  = if shouldExcludeDir name (excludeDirs options) then []
    else listedBelow options (path_join dir name) chains.
Proof.
  unfold listedBelow, shouldExcludeDir.
  induction chains as [|ch chains IH]; cbn [map filter].
  - now destruct (includes _ _).
  - cbn [notExcluded forallb].
    destruct (includes (excludeDirs options) name); cbn [negb andb];
      [exact IH|].
    fold (notExcluded options ch).
    destruct (notExcluded options ch); [|exact IH].
    cbn [map]. now rewrite IH.
Qed.

Lemma walkEntry_listed (entry : Dirent) :
  forall dir fileList t,
    snd (walkEntry dir options entry fileList t)
    = t ++ listedBelow options dir (dirsOfEntry entry).
Proof.
  induction entry as [name | name | name entries IH | name]
    using Dirent_nested_ind; intros dir fileList t.
  - cbn [walkEntry dirsOfEntry]. unfold listedBelow. cbn [filter map].
    rewrite app_nil_r. repeat break_if; reflexivity.
  - cbn [walkEntry dirsOfEntry].
    change [[name]] with (map (cons name) [[]]).
    rewrite listedBelow_below.
    destruct (shouldExcludeDir name (excludeDirs options));
      [now rewrite app_nil_r | reflexivity].
  - cbn [walkEntry dirsOfEntry].
    change ([name] :: map (cons name) (flat_map dirsOfEntry entries))
      with (map (cons name) ([] :: flat_map dirsOfEntry entries)).
    rewrite listedBelow_below.
    destruct (shouldExcludeDir name (excludeDirs options));
      [now rewrite app_nil_r|].
    rewrite bind_snd. cbn [emit fst snd].
    rewrite (forOf_trace _
               (fun e => listedBelow options (path_join dir name)
                           (dirsOfEntry e))).
    + rewrite listedBelow_flat_map, <- app_assoc. reflexivity.
    + intros e He fl t'. rewrite Forall_forall in IH. now apply IH.
  - cbn [walkEntry dirsOfEntry]. unfold listedBelow. cbn [filter map].
    now rewrite app_nil_r.
Qed.

Lemma walkDir_trace (dir : jstring) (fileList : list jstring)
    (t : list Event) :
  snd (walkDir dir options fileList t)
  = t ++ EvReaddir dir
         :: listedBelow options dir (dirsUnder (fs_readdir dir)).
Proof.
  unfold walkDir, walkListing. rewrite bind_snd. cbn [emit fst snd].
  destruct (fs_readdir dir) as [entries|]; cbn [dirsUnder].
  - rewrite (forOf_trace _
               (fun e => listedBelow options dir (dirsOfEntry e))).
    + now rewrite listedBelow_flat_map, <- app_assoc.
    + intros e _ fl t'. apply walkEntry_listed.
  - reflexivity.
Qed.

Lemma analyzeFile_trace (filePath : jstring) (t : list Event) :
  snd (analyzeFile filePath options t) = t ++ [EvReadFile filePath].
Proof.
  unfold analyzeFile. rewrite bind_snd. cbn [emit fst snd].
  now destruct (fs_readFile filePath).
Qed.

Lemma analyzeAll_trace (files : list jstring) (t : list Event) :
  snd (analyzeAll options files t) = t ++ map EvReadFile files.
Proof.
  unfold analyzeAll.
  rewrite (forOf_trace _ (fun f => [EvReadFile f])).
  - f_equal.
  - intros f _ acc t'. rewrite bind_snd, analyzeFile_trace.
    now destruct (fst (analyzeFile f options t')).
Qed.

Lemma analysed_files (files : list jstring) :
  map file (analysed options files) = filter readable files.
Proof.
  unfold analysed, readable.
  induction files as [|f files IH]; [reflexivity|].
  cbn [flat_map filter]. rewrite map_app, IH.
  unfold analyzeFile at 1. rewrite bind_fst. cbn [emit fst snd].
  now destruct (fs_readFile f).
Qed.

End MoreRunFacts.

(** X13. [analyzeFile] makes exactly one call to [readFile]; it returns
    null exactly when that call throws; the record it returns otherwise
    carries the path it was given, an extension that is never empty (the
    lowercased extension of the path, or [unknown] when there is none)
    and at least one line. *)
Theorem analyzeFile_record {host : Host} (filePath : jstring)
    (options : Options) (t : list Event) :
  snd (analyzeFile filePath options t) = t ++ [EvReadFile filePath]
  /\ (fst (analyzeFile filePath options t) = None
      <-> fs_readFile filePath = None)
  /\ (forall s, fst (analyzeFile filePath options t) = Some s ->
      file s = filePath
      /\ ext s <> []
      /\ (extensionOf filePath <> [] -> ext s = extensionOf filePath)
      /\ (extensionOf filePath = [] -> ext s = lit "unknown")
      /\ 1 <= totalLines s).
Proof.
  split; [apply analyzeFile_trace|].
  unfold analyzeFile. rewrite bind_fst. cbn [emit fst snd].
  destruct (fs_readFile filePath) as [content|]; cbn [ret fst].
  - split; [split; discriminate|]. intros s [= <-].
    cbn [file ext totalLines total analyzeTextLines].
    destruct (eqb (extensionOf filePath) []) eqn:E.
    + apply eqb_nil in E. repeat split; try congruence; try discriminate.
      pose proof (splitLines_nonempty content). lia.
    + apply eqb_nil_false in E. repeat split; try congruence.
      pose proof (splitLines_nonempty content). lia.
  - split; [tauto | discriminate].
Qed.

(** X14. The loop over the walker's list reads every file of the list
    exactly once, in the order of the list, and does nothing else to the
    environment; the records it collects are those of the files that can
    be read, in the same order. *)
Theorem analyzeAll_reads_each_file_once {host : Host} (options : Options)
    (files : list jstring) (t : list Event) :
  snd (analyzeAll options files t) = t ++ map EvReadFile files
  /\ map file (snd (fst (analyzeAll options files t)))
     = filter readable files.
Proof.
  split; [apply analyzeAll_trace|].
  rewrite analyzeAll_fold, fold_accumulate_stats. cbn [snd app].
  apply analysed_files.
Qed.

(** X15. [walkDir] lists the directory it is given and then, depth
    first, exactly the directories below it that are reached without going
    through an excluded name: an excluded directory is never listed, nor
    anything below it; a directory whose listing throws is listed once
    and the walk goes on.  It reads no file and calls no [stat]. *)
Theorem walkDir_lists_unexcluded_dirs {host : Host} (dir : jstring)
    (options : Options) (fileList : list jstring) (t : list Event) :
  snd (walkDir dir options fileList t)
  = t ++ EvReaddir dir
         :: listedBelow options dir (dirsUnder (fs_readdir dir)).
Proof.
  unfold walkDir, walkListing. rewrite bind_snd. cbn [emit fst snd].
  destruct (fs_readdir dir) as [entries|]; cbn [dirsUnder].
  - rewrite (forOf_trace _
               (fun e => listedBelow options dir (dirsOfEntry e))).
    + now rewrite listedBelow_flat_map, <- app_assoc.
    + intros e _ fl t'. apply walkEntry_listed.
  - reflexivity.
Qed.

Lemma largestFiles_nil (top : Z) : largestFiles [] top = [].
Proof.
  unfold largestFiles, slice2. cbn [sort List.length].
  now rewrite skipn_nil, firstn_nil.
Qed.

(** X16. A root directory whose listing throws does not fail the run:
    after [stat] and one [readdir], [run] returns a report without file,
    with all totals zero, no per-extension entry and no largest file. *)
Theorem run_unlistable_root {host : Host} (targetPath : jstring)
    (options : Options) (t : list Event) (st : Stats) :
  fs_stat targetPath = Some st -> isDirectory st = true ->
  fs_readdir targetPath = None ->
  run targetPath options t
  = (Returned (mkReport targetPath [] [] [] 0 0 0 0 []),
     t ++ [EvStat targetPath; EvReaddir targetPath]).
Proof.
  intros Hs Hd Hr. unfold run, walkDir, walkListing, analyzeAll.
  unfold bind, emit, ret. rewrite Hs, Hd, Hr. cbn [negb forOf ret].
  rewrite largestFiles_nil, <- app_assoc. reflexivity.
Qed.

Section FlagFacts.

Context {host : Host}.
Variables o1 o2 : Options.
Hypothesis Hsame : sameButFlags o1 o2.

Lemma walkEntry_flags (entry : Dirent) :
  forall dir fileList t,
    walkEntry dir o1 entry fileList t = walkEntry dir o2 entry fileList t.
Proof.
  destruct Hsame as (He & Hx & _ & _).
  induction entry as [name | name | name entries IH | name]
    using Dirent_nested_ind; intros dir fileList t; cbn [walkEntry].
  - now rewrite He.
  - now rewrite Hx.
  - rewrite Hx. destruct (shouldExcludeDir name (excludeDirs o2));
      [reflexivity|].
    unfold bind. cbn [emit]. apply forOf_ext.
    intros e Hin fl t'. rewrite Forall_forall in IH. now apply IH.
  - reflexivity.
Qed.

Lemma walkDir_flags (dir : jstring) (fileList : list jstring)
    (t : list Event) :
  walkDir dir o1 fileList t = walkDir dir o2 fileList t.
Proof.
  unfold walkDir, walkListing, bind. cbn [emit].
  destruct (fs_readdir dir); [|reflexivity].
  apply forOf_ext. intros e _ fl t'. apply walkEntry_flags.
Qed.

Lemma analyzeAll_flags (files : list jstring) (t : list Event) :
  analyzeAll o1 files t = analyzeAll o2 files t.
Proof.
  destruct Hsame as (_ & _ & Hd & _).
  unfold analyzeAll. apply forOf_ext. intros f _ acc t'.
  unfold analyzeFile. now rewrite Hd.
Qed.

Lemma run_flags (targetPath : jstring) (t : list Event) :
  run targetPath o1 t = run targetPath o2 t.
Proof.
  unfold run, bind. cbn [emit].
  destruct (fs_stat targetPath) as [st|]; [|reflexivity].
  destruct (isDirectory st); cbn [negb]; [|reflexivity].
  rewrite walkDir_flags.
  destruct (walkDir targetPath o2 [] (t ++ [EvStat targetPath]))
    as [fl t1].
  rewrite analyzeAll_flags.
  destruct (analyzeAll o2 fl t1) as [[m fs] t2].
  destruct Hsame as (_ & _ & _ & Ht). now rewrite Ht.
Qed.

End FlagFacts.

(** X17. [countEmpty] and [format] are never read by the walk, the
    analysis or the aggregation: two configurations that differ only in
    them give the same outcome, the same report and the same trace. *)
Theorem run_ignores_countEmpty_and_format {host : Host} (o1 o2 : Options)
    (targetPath : jstring) (t : list Event) :
  sameButFlags o1 o2 ->
  run targetPath o1 t = run targetPath o2 t
  /\ (forall dir fileList, walkDir dir o1 fileList t
                           = walkDir dir o2 fileList t)
  /\ (forall filePath, analyzeFile filePath o1 t
                       = analyzeFile filePath o2 t).
Proof.
  intros H. split; [now apply run_flags|]. split.
  - intros dir fileList. now apply walkDir_flags.
  - intros filePath. destruct H as (_ & _ & Hd & _).
    unfold analyzeFile. now rewrite Hd.
Qed.

(** X18. The trace of a run on a directory: one [stat] of the root, the
    listing of the root and of the directories below it that no excluded
    name hides, then one read of each file of the walker's list, in
    order, and nothing else. *)
Theorem run_trace {host : Host} (targetPath : jstring) (options : Options)
    (t : list Event) (st : Stats) :
  fs_stat targetPath = Some st -> isDirectory st = true ->
  snd (run targetPath options t)
  = t ++ EvStat targetPath
         :: EvReaddir targetPath
         :: listedBelow options targetPath
              (dirsUnder (fs_readdir targetPath))
         ++ map EvReadFile (fileList (reportOf options targetPath t)).
Proof.
  intros Hs Hd. unfold run.
  rewrite bind_snd, Hs, Hd. cbn [negb emit fst snd].
  rewrite bind_snd, bind_snd.
  destruct (fst (analyzeAll options
                   (fst (walkDir targetPath options []
                           (t ++ [EvStat targetPath])))
                   (snd (walkDir targetPath options []
                           (t ++ [EvStat targetPath])))))
    as [m fs].
  cbn [ret snd]. rewrite analyzeAll_trace, walkDir_trace.
  unfold reportOf. cbn [fileList].
  now rewrite <- !app_assoc.
Qed.

(* ===================================================================== *)
(** * Further properties of the sorted lists *)
(* ===================================================================== *)

Lemma StronglySorted_firstn_skipn {A} (R : A -> A -> Prop) (l : list A) :
  StronglySorted R l ->
  forall n a b, In a (firstn n l) -> In b (skipn n l) -> R a b.
Proof.
  induction 1 as [|x l Hl IH Hx]; intros n a b Ha Hb.
  - now rewrite firstn_nil in Ha.
  - destruct n as [|n]; [now cbn in Ha|].
    cbn [firstn skipn] in Ha, Hb. destruct Ha as [<-|Ha].
    + rewrite Forall_forall in Hx. apply Hx.
      rewrite <- (firstn_skipn n l). apply in_or_app. now right.
    + now apply (IH n).
Qed.

(** X19. The largest-files list holds [min(top, number of records)]
    records, all of them records of the run, and no record left out has
    more lines than a record that is listed. *)
Theorem largestFiles_dominates (fileStats : list FileStat) (top : Z) :
  0 <= top ->
  exists rest,
    Permutation fileStats (largestFiles fileStats top ++ rest)
    /\ List.length (largestFiles fileStats top)
       = Nat.min (Z.to_nat top) (List.length fileStats)
    /\ forall a b, In a (largestFiles fileStats top) -> In b rest ->
                   totalLines b <= totalLines a.
Proof.
  intros Htop. unfold largestFiles. rewrite (slice2_firstn _ _ Htop).
  exists (skipn (Z.to_nat top) (sort byTotalLinesDesc fileStats)).
  split; [|split].
  - rewrite firstn_skipn. apply sort_perm.
  - rewrite length_firstn.
    now rewrite <- (Permutation_length (sort_perm byTotalLinesDesc fileStats)).
  - intros a b Ha Hb.
    exact (StronglySorted_firstn_skipn _ _ (sort_sortedDesc fileStats)
             _ a b Ha Hb).
Qed.

Section KeySortFacts.

Context {A : Type}.
Variable key : A -> Z.




End KeySortFacts.


(* ===================================================================== *)
(** * The further properties at work on concrete inputs *)
(* ===================================================================== *)

Lemma onlyWhitespace_by_forallb (s : jstring) :
  forallb isWhiteSpace s = true -> onlyWhitespace s.
Proof. apply onlyWhitespace_forallb. Qed.

Lemma beginsWith_by_startsWith (p s : jstring) :
  startsWith s p = true -> beginsWith p s.
Proof. apply startsWith_spec. Qed.

Lemma oneLine_by_forallb (s : jstring) :
  forallb (fun c => negb (c =? 10)%N && negb (c =? 13)%N) s = true ->
  oneLine s.
Proof.
  rewrite forallb_forall. intros H c Hc. specialize (H c Hc).
  apply andb_true_iff in H as [H1 H2].
  apply negb_true_iff in H1, H2. now apply N.eqb_neq in H1, H2.
Qed.

Lemma no_comma_by_forallb (s : jstring) :
  forallb (fun c => negb (c =? 44)%N) s = true -> ~ In 44%N s.
Proof.
  rewrite forallb_forall. intros H Hin. specialize (H _ Hin).
  discriminate.
Qed.

(** A Markdown file: nothing is ever counted as a comment. *)
Lemma other_family_no_comments_witness :
  let lines := [lit "// not a comment here"; lit "/* nor this";
                lit "<!-- nor that -->"] in
  isCStyle (lit "md") = false /\ isHtmlLike (lit "md") = false
  /\ commentOnly (analyzeTextLines lines (lit "md") true) = 0.
Proof.
  cbn zeta. split; [reflexivity|]. split; [reflexivity|].
  exact (other_family_no_comments _ (lit "md") true eq_refl eq_refl).
Defined.

(** In a Vue file: a [//] line, an opening line, a complete comment, the
    token [<!-->] (its end token is found at position 2) and a comment
    followed by markup. *)
Lemma outside_block_html_rule_witness :
  let st := mkScan 1 0 false None in
  let vue := lit "vue" in
  let raw1 := lit "  // note" in
  let raw2 := lit "  <!-- opens here" in
  let raw3 := lit "  <!-- one line -->  " in
  let raw4 := lit "<!-->" in
  let raw5 := lit "<!-- a --> <div>" in
  (isCStyle vue = false /\ isHtmlLike vue = true /\ withinBlock st = false)
  /\ (trimmedOf raw1 <> [] /\ trimmedOf raw2 <> [] /\ trimmedOf raw3 <> []
      /\ trimmedOf raw4 <> [] /\ trimmedOf raw5 <> [])
  /\ (notCountedComment st (scanLine vue true st raw1)
      /\ withinBlock (scanLine vue true st raw1) = false)
  /\ (countedComment st (scanLine vue true st raw2)
      /\ withinBlock (scanLine vue true st raw2) = true
      /\ blockType (scanLine vue true st raw2) = Some BlockHtml)
  /\ (countedComment st (scanLine vue true st raw3)
      /\ withinBlock (scanLine vue true st raw3) = false)
  /\ (countedComment st (scanLine vue true st raw4)
      /\ withinBlock (scanLine vue true st raw4) = false)
  /\ (notCountedComment st (scanLine vue true st raw5)
      /\ withinBlock (scanLine vue true st raw5) = false).
Proof.
  cbn zeta.
  assert (trimmedOf (lit "  // note") <> []) as H1
    by (vm_compute; discriminate).
  assert (trimmedOf (lit "  <!-- opens here") <> []) as H2
    by (vm_compute; discriminate).
  assert (trimmedOf (lit "  <!-- one line -->  ") <> []) as H3
    by (vm_compute; discriminate).
  assert (trimmedOf (lit "<!-->") <> []) as H4
    by (vm_compute; discriminate).
  assert (trimmedOf (lit "<!-- a --> <div>") <> []) as H5
    by (vm_compute; discriminate).
  split; [repeat split|]. split; [auto 6|].
  split; [|split; [|split; [|split]]].
  - apply (outside_block_html_rule (lit "vue") (mkScan 1 0 false None)
             (lit "  // note") eq_refl eq_refl H1 eq_refl).
    apply not_beginsWith_by_startsWith. reflexivity.
  - apply (outside_block_html_rule (lit "vue") (mkScan 1 0 false None)
             (lit "  <!-- opens here") eq_refl eq_refl H2 eq_refl).
    + apply beginsWith_by_startsWith. reflexivity.
    + apply not_occurs_by_indexOf. reflexivity.
  - pose proof (outside_block_html_rule (lit "vue")
                  (mkScan 1 0 false None) (lit "  <!-- one line -->  ")
                  eq_refl eq_refl H3 eq_refl) as (_ & Hb).
    destruct Hb as (_ & Hc);
      [apply beginsWith_by_startsWith; reflexivity|].
    destruct (Hc (lit "<!-- one line ") []) as (Hyes & _ & Hw).
    + apply firstOccurrence_by_indexOf; reflexivity.
    + split; [apply Hyes; constructor | exact Hw].
  - pose proof (outside_block_html_rule (lit "vue")
                  (mkScan 1 0 false None) (lit "<!-->")
                  eq_refl eq_refl H4 eq_refl) as (_ & Hb).
    destruct Hb as (_ & Hc);
      [apply beginsWith_by_startsWith; reflexivity|].
    destruct (Hc (lit "<!") []) as (Hyes & _ & Hw).
    + apply firstOccurrence_by_indexOf; reflexivity.
    + split; [apply Hyes; constructor | exact Hw].
  - pose proof (outside_block_html_rule (lit "vue")
                  (mkScan 1 0 false None) (lit "<!-- a --> <div>")
                  eq_refl eq_refl H5 eq_refl) as (_ & Hb).
    destruct Hb as (_ & Hc);
      [apply beginsWith_by_startsWith; reflexivity|].
    destruct (Hc (lit "<!-- a ") (lit " <div>")) as (_ & Hno & Hw).
    + apply firstOccurrence_by_indexOf; reflexivity.
    + split; [|exact Hw].
      apply Hno. apply not_onlyWhitespace_by_forallb. reflexivity.
Defined.

(** A line indented by a tab and two spaces, with a space and a
    non-breaking space after it. *)
Lemma indentation_irrelevant_witness :
  let a := [9; 32; 32]%N in
  let b := [32; 160]%N in
  onlyWhitespace a /\ onlyWhitespace b
  /\ scanLine (lit "ts") true scanInit (a ++ lit "// note" ++ b)
     = scanLine (lit "ts") true scanInit (lit "// note").
Proof.
  cbn zeta.
  assert (onlyWhitespace [9; 32; 32]%N) as Ha
    by (apply onlyWhitespace_by_forallb; reflexivity).
  assert (onlyWhitespace [32; 160]%N) as Hb
    by (apply onlyWhitespace_by_forallb; reflexivity).
  split; [exact Ha|]. split; [exact Hb|].
  exact (indentation_irrelevant (lit "ts") true scanInit _ (lit "// note")
           _ Ha Hb).
Defined.

Lemma unterminated_html_block_counts_nonblank_witness :
  let pre := [lit "<div>x</div>"] in
  let rest := [[]; lit "   text"; lit "  more text"] in
  opensUnterminatedHtml (lit "html") pre (lit "<!-- header") rest
  /\ commentOnly (analyzeTextLines (pre ++ lit "<!-- header" :: rest)
                    (lit "html") true)
     = commentOnly (analyzeTextLines pre (lit "html") true)
       + nonBlankCount (lit "<!-- header" :: rest)
  /\ withinBlock (scanLines (lit "html") true
                    (pre ++ lit "<!-- header" :: rest)) = true
  /\ blockType (scanLines (lit "html") true
                  (pre ++ lit "<!-- header" :: rest)) = Some BlockHtml.
Proof.
  cbn zeta.
  assert (opensUnterminatedHtml (lit "html") [lit "<div>x</div>"]
            (lit "<!-- header") [[]; lit "   text"; lit "  more text"])
    as H.
  { split; [reflexivity|]. split; [reflexivity|]. split; [reflexivity|].
    split; [apply beginsWith_by_startsWith; reflexivity|].
    split; [apply not_occurs_by_indexOf; reflexivity|].
    repeat constructor; apply not_occurs_by_indexOf; reflexivity. }
  split; [exact H|].
  exact (unterminated_html_block_counts_nonblank _ _ _ _ H).
Defined.

Lemma splitLines_join_witness :
  let lines := [lit "// a"; []; lit "code();"] in
  lineTerminator [13%N; 10%N] /\ lines <> [] /\ Forall oneLine lines
  /\ splitLines (join [13%N; 10%N] lines) = lines.
Proof.
  cbn zeta.
  assert (lineTerminator [13%N; 10%N]) as Hs by (right; left; reflexivity).
  assert ([lit "// a"; []; lit "code();"] <> []) as Hne by discriminate.
  assert (Forall oneLine [lit "// a"; []; lit "code();"]) as Hall
    by (repeat (constructor; [apply oneLine_by_forallb; reflexivity|]);
        constructor).
  split; [exact Hs|]. split; [exact Hne|]. split; [exact Hall|].
  exact (splitLines_join _ _ Hs Hne Hall).
Defined.

Lemma trailing_newline_adds_a_line_witness :
  let content := lit "// a" ++ newline ++ lit "code();" in
  last content 0%N <> 13%N
  /\ splitLines (content ++ [10%N]) = splitLines content ++ [[]]
  /\ analyzeTextLines (splitLines (content ++ [10%N])) (lit "ts") true
     = mkCounts 3 2 1.
Proof.
  cbn zeta.
  assert (last (lit "// a" ++ newline ++ lit "code();") 0%N <> 13%N) as H
    by (vm_compute; discriminate).
  split; [exact H|].
  exact (trailing_newline_adds_a_line _ (lit "ts") true H).
Defined.

Lemma popt_join_witness :
  let l := [lit "ts"; lit "tsx"; lit ".vue"] in
  Forall optionItem l
  /\ popt (Some (lit "ts,tsx,.vue")) = l.
Proof.
  cbn zeta.
  assert (Forall optionItem [lit "ts"; lit "tsx"; lit ".vue"]) as H.
  { repeat constructor; try discriminate;
      apply no_comma_by_forallb; reflexivity. }
  split; [exact H|].
  exact (popt_join _ H).
Defined.

Example popt_demo :
  popt (Some (lit " ts , ,tsx,,")) = [lit "ts"; lit "tsx"].
Proof. reflexivity. Qed.

Lemma analyzeFile_record_witness :
  snd (analyzeFile (host := Demo.host) (lit "proj/src/ghost.ts")
         DEFAULT_OPTIONS [])
  = [] ++ [EvReadFile (lit "proj/src/ghost.ts")]
  /\ fst (analyzeFile (host := Demo.host) (lit "proj/src/ghost.ts")
            DEFAULT_OPTIONS [])
     = None
  /\ (forall s,
         fst (analyzeFile (host := Demo.host) (lit "proj/src/Util.JS")
                DEFAULT_OPTIONS []) = Some s ->
         ext s = lit "js" /\ 1 <= totalLines s).
Proof.
  destruct (analyzeFile_record (host := Demo.host) (lit "proj/src/ghost.ts")
              DEFAULT_OPTIONS []) as (Ht & Hnone & _).
  destruct (analyzeFile_record (host := Demo.host) (lit "proj/src/Util.JS")
              DEFAULT_OPTIONS []) as (_ & _ & Hsome).
  split; [exact Ht|]. split; [apply Hnone; reflexivity|].
  intros s Hs. destruct (Hsome s Hs) as (_ & _ & Hext & _ & Hlines).
  split; [apply Hext; discriminate | exact Hlines].
Defined.

Lemma run_unlistable_root_witness :
  let h := {| path_join := Demo.join; path_extname := Demo.extname;
              toLowerCase := Demo.lower;
              fs_stat := fun _ => Some (mkStats true);
              fs_readdir := fun _ => None;
              fs_readFile := fun _ => None |} in
  fs_stat (Host := h) (lit "locked") = Some (mkStats true)
  /\ isDirectory (mkStats true) = true
  /\ fs_readdir (Host := h) (lit "locked") = None
  /\ run (host := h) (lit "locked") DEFAULT_OPTIONS []
     = (Returned (mkReport (lit "locked") [] [] [] 0 0 0 0 []),
        [] ++ [EvStat (lit "locked"); EvReaddir (lit "locked")]).
Proof.
  cbn zeta. split; [reflexivity|]. split; [reflexivity|].
  split; [reflexivity|].
  exact (run_unlistable_root
           (host := {| path_join := Demo.join; path_extname := Demo.extname;
                       toLowerCase := Demo.lower;
                       fs_stat := fun _ => Some (mkStats true);
                       fs_readdir := fun _ => None;
                       fs_readFile := fun _ => None |})
           (lit "locked") DEFAULT_OPTIONS [] (mkStats true)
           eq_refl eq_refl eq_refl).
Defined.

Lemma run_ignores_countEmpty_and_format_witness :
  let o2 := mkOptions (extensions DEFAULT_OPTIONS)
              (excludeDirs DEFAULT_OPTIONS) true true FormatJson 10 in
  sameButFlags DEFAULT_OPTIONS o2
  /\ run (host := Demo.host) (lit "proj") DEFAULT_OPTIONS []
     = run (host := Demo.host) (lit "proj") o2 [].
Proof.
  cbn zeta.
  assert (sameButFlags DEFAULT_OPTIONS
            (mkOptions (extensions DEFAULT_OPTIONS)
               (excludeDirs DEFAULT_OPTIONS) true true FormatJson 10)) as H
    by (repeat split).
  split; [exact H|].
  exact (proj1 (run_ignores_countEmpty_and_format (host := Demo.host)
                  _ _ (lit "proj") [] H)).
Defined.

Lemma run_trace_witness :
  fs_stat (Host := Demo.host) (lit "proj") = Some (mkStats true)
  /\ isDirectory (mkStats true) = true
  /\ snd (run (host := Demo.host) (lit "proj") DEFAULT_OPTIONS [])
     = [] ++ EvStat (lit "proj")
          :: EvReaddir (lit "proj")
          :: listedBelow (host := Demo.host) DEFAULT_OPTIONS (lit "proj")
               (dirsUnder (fs_readdir (Host := Demo.host) (lit "proj")))
          ++ map EvReadFile
               (fileList (reportOf (host := Demo.host) DEFAULT_OPTIONS
                            (lit "proj") [])).
Proof.
  split; [reflexivity|]. split; [reflexivity|].
  exact (run_trace (host := Demo.host) (lit "proj") DEFAULT_OPTIONS []
           (mkStats true) eq_refl eq_refl).
Defined.

Example walkDir_demo_listed :
  listedBelow (host := Demo.host) DEFAULT_OPTIONS (lit "proj")
    (dirsUnder (fs_readdir (Host := Demo.host) (lit "proj")))
  = [EvReaddir (lit "proj/src"); EvReaddir (lit "proj/locked")].
Proof. reflexivity. Qed.

Lemma largestFiles_dominates_witness :
  let fileStats :=
    [mkFileStat (lit "a.ts") (lit "ts") 3 2 1;
     mkFileStat (lit "b.ts") (lit "ts") 7 7 0;
     mkFileStat (lit "c.js") (lit "js") 3 3 0] in
  0 <= 2
  /\ exists rest,
      Permutation fileStats (largestFiles fileStats 2 ++ rest)
      /\ List.length (largestFiles fileStats 2)
         = Nat.min (Z.to_nat 2) (List.length fileStats)
      /\ forall a b, In a (largestFiles fileStats 2) -> In b rest ->
                     totalLines b <= totalLines a.
Proof.
  cbn zeta. assert (0 <= 2) as H by lia.
  split; [exact H|].
  exact (largestFiles_dominates _ 2 H).
Defined.

(** X21. A complete block comment of a c-style file, read from outside
    a block: an opening line that starts with [/*] and has no [*/] after
    the opening token, any lines without [*/], and a closing line whose
    first [*/] is followed by whitespace only.  Every line of it that is
    not blank is counted as comment-only, and the block is closed after
    the closing line. *)
Theorem complete_block_comment_counted (ext : jstring) (st : Scan)
    (opening : jstring) (middle : list jstring)
    (closing r pre post : jstring) :
  isCStyle ext = true -> withinBlock st = false ->
  trimmedOf opening = lit "/*" ++ r -> ~ occurs (lit "*/") r ->
  Forall (fun raw => ~ occurs (lit "*/") (trimmedOf raw)) middle ->
  firstOccurrence (lit "*/") (trimmedOf closing) pre post ->
  onlyWhitespace post ->
  scanFrom ext true st (opening :: middle ++ [closing])
  = mkScan (s_nonEmpty st + nonBlankCount middle + 2)
      (s_commentOnly st + nonBlankCount middle + 2) false None.
Proof.
  intros Hc Hw Hopen Hno Hmid Hclose Hpost.
  assert (blankLine opening = false) as Hb1.
  { apply (beginsWith_nonblank (lit "/*")); [discriminate | now exists r]. }
  assert (blankLine closing = false) as Hb2.
  { apply trimmed_nonblank. destruct Hclose as [-> _].
    destruct pre; discriminate. }
  change (scanFrom ext true st (opening :: middle ++ [closing]))
    with (scanFrom ext true (scanLine ext true st opening)
            (middle ++ [closing])).
  rewrite (scanLine_outside ext st opening Hb1 Hw), Hopen.
  rewrite (outsideBlock_open _ _ _ Hc Hno), scanFrom_app.
  rewrite (scanFrom_inside_c ext middle);
    [|reflexivity|reflexivity|exact Hmid].
  change (scanFrom ext true ?s [closing]) with (scanLine ext true s closing).
  rewrite (scanLine_inside ext _ closing BlockC Hb2);
    [|reflexivity|reflexivity].
  rewrite (insideBlock_found BlockC _ _ _ _ Hclose).
  apply trim_eqb_nil in Hpost. rewrite Hpost.
  unfold closeBlock, incCommentOnly, incNonEmpty, openBlock.
  cbn [s_nonEmpty s_commentOnly]. f_equal; lia.
Qed.

Lemma complete_block_comment_counted_witness :
  let opening := lit "  /**" in
  let middle := [lit "   * Adds two numbers."; []; lit "   * Returns it."] in
  let closing := lit "   */" in
  isCStyle (lit "ts") = true /\ withinBlock scanInit = false
  /\ trimmedOf opening = lit "/*" ++ lit "*"
  /\ ~ occurs (lit "*/") (lit "*")
  /\ Forall (fun raw => ~ occurs (lit "*/") (trimmedOf raw)) middle
  /\ firstOccurrence (lit "*/") (trimmedOf closing) [] []
  /\ onlyWhitespace []
  /\ scanFrom (lit "ts") true scanInit (opening :: middle ++ [closing])
     = mkScan (0 + nonBlankCount middle + 2) (0 + nonBlankCount middle + 2)
         false None.
Proof.
  cbn zeta.
  assert (~ occurs (lit "*/") (lit "*")) as Hno
    by (apply not_occurs_by_indexOf; reflexivity).
  assert (Forall (fun raw => ~ occurs (lit "*/") (trimmedOf raw))
            [lit "   * Adds two numbers."; []; lit "   * Returns it."])
    as Hmid
    by (repeat constructor; apply not_occurs_by_indexOf; reflexivity).
  assert (firstOccurrence (lit "*/") (trimmedOf (lit "   */")) [] [])
    as Hclose by (apply firstOccurrence_by_indexOf; reflexivity).
  assert (onlyWhitespace []) as Hpost by constructor.
  split; [reflexivity|]. split; [reflexivity|]. split; [reflexivity|].
  split; [exact Hno|]. split; [exact Hmid|]. split; [exact Hclose|].
  split; [exact Hpost|].
  exact (complete_block_comment_counted (lit "ts") scanInit (lit "  /**")
           _ (lit "   */") (lit "*") [] [] eq_refl eq_refl eq_refl Hno Hmid
           Hclose Hpost).
Defined.
